(** * Payment and subscription backend: shallow embedding and properties

    Embedding of the server side of the checkout application:
    - [src/unnamed/part_000]: the Express routes ([registerRoutes]) and the
      in-memory store ([MemStorage]);
    - [src/server/services/webhookService.ts]: [WebhookService];
    - [src/server/services/bullsPayService.ts] and
      [src/server/services/sourcePayService.ts]: the gateway clients;
    - [src/shared/schema.ts]: the records and [checkoutFormSchema].

    Every async method runs in a small state-and-exception monad [M]: the
    store is threaded through, and a thrown exception keeps the mutations
    already done (JavaScript does not roll the in-memory maps back).
    A JavaScript [Map] is an association list in insertion order, with
    [Map.set] replacing the value in place or appending a new key.
    [randomUUID()] is a fresh counter, [new Date()] reads a clock. *)

From Stdlib Require Import String Ascii List ZArith Bool Lia DecimalString.
Import ListNotations.
Open Scope string_scope.
Open Scope Z_scope.

(** ** Calendar arithmetic of JavaScript [Date] (local time taken as UTC) *)

Module JsDate.

Definition msPerDay : Z := 86400000.

(** Broken-down reading of the clock: [getFullYear], [getMonth] (0-based),
    [getDate] and the milliseconds elapsed in that day. *)
Record DateF := mkDateF {
  year : Z;
  month : Z;
  date : Z;
  msInDay : Z
}.

(** Day number (days since 1970-01-01) of year [y], month [m] in 0..11 and
    day [d] of the month, proleptic Gregorian calendar; [d] may exceed the
    month, the surplus rolling over as in ECMAScript's MakeDay. *)
Definition days_from_civil (y m d : Z) : Z :=
  let yp := if m <? 2 then y - 1 else y in
  let mp := (m + 10) mod 12 in
  365 * yp + yp / 4 - yp / 100 + yp / 400 + (153 * mp + 2) / 5 + d - 1
  - 719468.

(** ECMAScript MakeDay: the month is normalised into the year first. *)
Definition MakeDay (y m d : Z) : Z :=
  days_from_civil (y + m / 12) (m mod 12) d.

(** Time value (milliseconds since the epoch) of a clock reading. *)
Definition timeValue (c : DateF) : Z :=
  MakeDay (year c) (month c) (date c) * msPerDay + msInDay c.

(** [d.setMonth(m)]: keeps year, day of month and time of day. *)
Definition setMonth (c : DateF) (m : Z) : Z :=
  MakeDay (year c) m (date c) * msPerDay + msInDay c.

(** [d.setFullYear(y)]: keeps month, day of month and time of day. *)
Definition setFullYear (c : DateF) (y : Z) : Z :=
  MakeDay y (month c) (date c) * msPerDay + msInDay c.

Definition isLeap (y : Z) : bool :=
  ((y mod 4 =? 0) && negb (y mod 100 =? 0)) || (y mod 400 =? 0).

(** Number of days of month [m] (0-based) of year [y]. *)
Definition daysInMonth (y m : Z) : Z :=
  if m =? 1 then (if isLeap y then 29 else 28)
  else if (m =? 3) || (m =? 5) || (m =? 8) || (m =? 10) then 30
  else 31.

End JsDate.

(** ** The monad: state, and exceptions that keep the state *)

Inductive outcome (A : Type) : Type :=
| Ret : A -> outcome A
| Throw : string -> outcome A.
Arguments Ret {A} _.
Arguments Throw {A} _.

(** ** Records of [src/shared/schema.ts] *)

(** Identifiers produced by [randomUUID()]. *)
Definition Uuid := nat.

Record BuyerInfo := mkBuyerInfo {
  bi_name : string;
  bi_email : string;
  bi_document : string;
  bi_phone : string
}.

(** [paymentData]: [null] is [None] on every field. *)
Record PaymentData := mkPaymentData {
  qrCodeBase64 : option string;
  qrCodeText : option string;
  paymentUrl : option string
}.

Record Transaction := mkTransaction {
  tx_id : Uuid;
  unicId : string;
  externalId : string;
  userId : option string;
  amount : Z;
  tx_status : string;
  paymentMethod : string;
  plan : string;
  planTitle : string;
  buyerInfo : BuyerInfo;
  paymentData : option PaymentData;
  tx_createdAt : Z;
  updatedAt : Z
}.

Record Subscription := mkSubscription {
  sub_id : Uuid;
  sub_userId : option string;
  sub_transactionId : Uuid;
  sub_plan : string;
  sub_status : string;
  startDate : Z;
  endDate : Z;
  sub_createdAt : Z
}.

(** [BullsPayWebhookPayload]; a body without a [data] object has
    [data = None], and reading [data.unic_id] from it throws. *)
Record PayloadData := mkPayloadData {
  unic_id : string;
  external_id : string;
  pd_status : string;
  total_value : Z
}.

Record Payload := mkPayload {
  event_type : string;
  data : option PayloadData
}.

Record WebhookEvent := mkWebhookEvent {
  ev_id : Uuid;
  eventType : string;
  ev_transactionId : string;
  payload : Payload;
  processed : bool;
  ev_createdAt : Z
}.

(** ** JavaScript [Map] as an association list in insertion order *)

Definition JsMap (V : Type) := list (Uuid * V).

Fixpoint map_get {V} (k : Uuid) (m : JsMap V) : option V :=
  match m with
  | [] => None
  | (k', v) :: r => if Nat.eqb k k' then Some v else map_get k r
  end.

Fixpoint map_set {V} (k : Uuid) (v : V) (m : JsMap V) : JsMap V :=
  match m with
  | [] => [(k, v)]
  | (k', v') :: r =>
      if Nat.eqb k k' then (k, v) :: r else (k', v') :: map_set k v r
  end.

(** [Array.from(m.values())]. *)
Definition map_values {V} (m : JsMap V) : list V := map snd m.

(** ** The store of [MemStorage], with the id source and the clock *)

Record Store := mkStore {
  transactions : JsMap Transaction;
  subscriptions : JsMap Subscription;
  webhookEvents : JsMap WebhookEvent;
  nextUuid : Uuid;
  clock : nat -> JsDate.DateF;
  ticks : nat
}.

Definition M (A : Type) := Store -> outcome A * Store.

Definition ret {A} (a : A) : M A := fun s => (Ret a, s).

Definition bind {A B} (m : M A) (f : A -> M B) : M B :=
  fun s => match m s with
           | (Ret a, s') => f a s'
           | (Throw e, s') => (Throw e, s')
           end.

Definition throw {A} (e : string) : M A := fun s => (Throw e, s).

(** [try { body } catch (error) { handler }]. *)
Definition try_catch {A} (body : M A) (handler : string -> M A) : M A :=
  fun s => match body s with
           | (Ret a, s') => (Ret a, s')
           | (Throw e, s') => handler e s'
           end.

Notation "x <- m ;; k" := (bind m (fun x => k))
  (at level 61, m at next level, right associativity).
Notation "m ;;; k" := (bind m (fun _ => k))
  (at level 61, right associativity).

Definition get_store : M Store := fun s => (Ret s, s).
Definition put_store (s : Store) : M unit := fun _ => (Ret tt, s).

(** [randomUUID()]. *)
Definition randomUUID : M Uuid :=
  fun s => (Ret (nextUuid s),
            mkStore (transactions s) (subscriptions s) (webhookEvents s)
                    (S (nextUuid s)) (clock s) (ticks s)).

(** [new Date()]: the current reading of the clock; the clock advances. *)
Definition newDate : M JsDate.DateF :=
  fun s => (Ret (clock s (ticks s)),
            mkStore (transactions s) (subscriptions s) (webhookEvents s)
                    (nextUuid s) (clock s) (S (ticks s))).

Definition set_transactions (m : JsMap Transaction) : M unit :=
  fun s => (Ret tt, mkStore m (subscriptions s) (webhookEvents s)
                            (nextUuid s) (clock s) (ticks s)).
Definition set_subscriptions (m : JsMap Subscription) : M unit :=
  fun s => (Ret tt, mkStore (transactions s) m (webhookEvents s)
                            (nextUuid s) (clock s) (ticks s)).
Definition set_webhookEvents (m : JsMap WebhookEvent) : M unit :=
  fun s => (Ret tt, mkStore (transactions s) (subscriptions s) m
                            (nextUuid s) (clock s) (ticks s)).

(** [console.log] / [console.error] have no effect on the store. *)
Definition log (_ : string) : M unit := ret tt.

(** ** [MemStorage] *)

Module MemStorage.

Record InsertTransaction := mkInsertTransaction {
  it_unicId : string;
  it_externalId : string;
  it_userId : option string;
  it_amount : Z;
  it_status : string;
  it_paymentMethod : string;
  it_plan : string;
  it_planTitle : string;
  it_buyerInfo : BuyerInfo;
  it_paymentData : option PaymentData
}.

Record InsertSubscription := mkInsertSubscription {
  is_userId : option string;
  is_transactionId : Uuid;
  is_plan : string;
  is_status : string;
  is_startDate : Z;
  is_endDate : Z
}.

Record InsertWebhookEvent := mkInsertWebhookEvent {
  iw_eventType : string;
  iw_transactionId : string;
  iw_payload : Payload;
  iw_processed : bool
}.

Definition getTransactionByUnicId (u : string) : M (option Transaction) :=
  s <- get_store ;;
  ret (find (fun t => String.eqb (unicId t) u) (map_values (transactions s))).

Definition createTransaction (i : InsertTransaction) : M Transaction :=
  id <- randomUUID ;;
  c1 <- newDate ;;
  c2 <- newDate ;;
  let t := mkTransaction id (it_unicId i) (it_externalId i) (it_userId i)
             (it_amount i) (it_status i) (it_paymentMethod i) (it_plan i)
             (it_planTitle i) (it_buyerInfo i) (it_paymentData i)
             (JsDate.timeValue c1) (JsDate.timeValue c2) in
  s <- get_store ;;
  set_transactions (map_set id t (transactions s)) ;;;
  ret t.

(** [transaction.status = status; transaction.updatedAt = now;
    if (paymentData) transaction.paymentData = paymentData]. *)
Definition assignStatus (t : Transaction) (status : string)
    (pd : option PaymentData) (now : Z) : Transaction :=
  mkTransaction (tx_id t) (unicId t) (externalId t) (userId t)
    (amount t) status (paymentMethod t) (plan t) (planTitle t) (buyerInfo t)
    (match pd with Some p => Some p | None => paymentData t end)
    (tx_createdAt t) now.

(** The found object is the one stored in the map: assigning its fields
    and setting it back under its id updates the entry. *)
Definition updateTransactionStatus (u : string) (status : string)
    (pd : option PaymentData) : M (option Transaction) :=
  found <- getTransactionByUnicId u ;;
  match found with
  | Some t =>
      now <- newDate ;;
      let t' := assignStatus t status pd (JsDate.timeValue now) in
      s <- get_store ;;
      set_transactions (map_set (tx_id t) t' (transactions s)) ;;;
      ret (Some t')
  | None => ret None
  end.

Definition getUserActiveSubscription (uid : string)
    : M (option Subscription) :=
  now <- newDate ;;
  s <- get_store ;;
  ret (find (fun sub =>
               match sub_userId sub with
               | Some u => String.eqb u uid
               | None => false
               end
               && String.eqb (sub_status sub) "active"
               && (JsDate.timeValue now <? endDate sub))
            (map_values (subscriptions s))).

Definition createSubscription (i : InsertSubscription) : M Subscription :=
  id <- randomUUID ;;
  c <- newDate ;;
  let sub := mkSubscription id (is_userId i) (is_transactionId i) (is_plan i)
               (is_status i) (is_startDate i) (is_endDate i)
               (JsDate.timeValue c) in
  s <- get_store ;;
  set_subscriptions (map_set id sub (subscriptions s)) ;;;
  ret sub.

Definition createWebhookEvent (i : InsertWebhookEvent) : M WebhookEvent :=
  id <- randomUUID ;;
  c <- newDate ;;
  let ev := mkWebhookEvent id (iw_eventType i) (iw_transactionId i)
              (iw_payload i) (iw_processed i) (JsDate.timeValue c) in
  s <- get_store ;;
  set_webhookEvents (map_set id ev (webhookEvents s)) ;;;
  ret ev.

Definition getUnprocessedWebhookEvents : M (list WebhookEvent) :=
  s <- get_store ;;
  ret (filter (fun e => negb (processed e)) (map_values (webhookEvents s))).

Definition markWebhookEventProcessed (id : Uuid) : M unit :=
  s <- get_store ;;
  match map_get id (webhookEvents s) with
  | Some e =>
      set_webhookEvents
        (map_set id (mkWebhookEvent (ev_id e) (eventType e)
                       (ev_transactionId e) (payload e) true (ev_createdAt e))
           (webhookEvents s))
  | None => ret tt
  end.

Definition getTransaction (id : Uuid) : M (option Transaction) :=
  s <- get_store ;;
  ret (map_get id (transactions s)).

Definition getTransactionByExternalId (e : string) : M (option Transaction) :=
  s <- get_store ;;
  ret (find (fun t => String.eqb (externalId t) e)
            (map_values (transactions s))).

(** [transaction.userId === userId]: a [null] user equals no string. *)
Definition getUserTransactions (uid : string) : M (list Transaction) :=
  s <- get_store ;;
  ret (filter (fun t => match userId t with
                        | Some u => String.eqb u uid
                        | None => false
                        end)
              (map_values (transactions s))).

Definition getSubscription (id : Uuid) : M (option Subscription) :=
  s <- get_store ;;
  ret (map_get id (subscriptions s)).

(** [subscription.status = status]: the stored object is updated in place
    and set back under the same id. *)
Definition updateSubscriptionStatus (id : Uuid) (status : string)
    : M (option Subscription) :=
  s <- get_store ;;
  match map_get id (subscriptions s) with
  | Some sub =>
      let sub' := mkSubscription (sub_id sub) (sub_userId sub)
                    (sub_transactionId sub) (sub_plan sub) status
                    (startDate sub) (endDate sub) (sub_createdAt sub) in
      set_subscriptions (map_set id sub' (subscriptions s)) ;;;
      ret (Some sub')
  | None => ret None
  end.

End MemStorage.

(** ** Gateway clients

    An HTTP exchange is an input: the decoded reply of the provider. A reply
    whose [response.ok] is false makes the client throw. *)

Module BullsPay.

(** Reply of [POST /transactions/create]. *)
Record CreateResponse := mkCreateResponse {
  cr_ok : bool;
  cr_success : bool;
  cr_payment_id : string;   (** [data.payment_data.id] *)
  cr_qrcode : string        (** [data.pix_data.qrcode] *)
}.

(** Reply of [GET /transactions/list?id=...]: the [status] of each listed
    transaction, [None] when [data.transactions] is missing. *)
Record ListResponse := mkListResponse {
  lr_ok : bool;
  lr_success : bool;
  lr_transactions : option (list string)
}.

Record RefundResponse := mkRefundResponse {
  rr_ok : bool;
  rr_success : bool
}.

Definition createTransaction (r : CreateResponse) : M CreateResponse :=
  if negb (cr_ok r) then throw "Bulls Pay API error"
  else if negb (cr_success r) then throw "Failed to create transaction"
  else ret r.

Definition checkTransactionStatus (r : ListResponse) : M string :=
  if negb (lr_ok r) then throw "Bulls Pay API error"
  else if lr_success r then
    match lr_transactions r with
    | None => throw "TypeError"
    | Some (s :: _) => ret s
    | Some [] => ret "pending"
    end
  else ret "pending".

Definition refundTransaction (r : RefundResponse) : M bool :=
  if negb (rr_ok r) then throw "Bulls Pay API error" else ret (rr_success r).

End BullsPay.

Module SourcePay.

(** Reply of [GET /v1/transactions/:id]: [sr_data] is [None] when [data] is
    falsy, and [Some None] when [data.status] is absent. *)
Record StatusResponse := mkStatusResponse {
  sr_ok : bool;
  sr_success : bool;
  sr_data : option (option string)
}.

Section WithLowerCase.

(** [String.prototype.toLowerCase]. *)
Variable toLowerCase : string -> string.

Definition mapStatus (status : option string) : string :=
  match status with
  | Some s =>
      if String.eqb s "paid" || String.eqb s "approved" then "paid"
      else if String.eqb s "pending" || String.eqb s "waiting_payment"
      then "pending"
      else if String.eqb s "failed" || String.eqb s "cancelled"
              || String.eqb s "expired" then "failed"
      else "pending"
  | None => "pending"
  end.

Definition checkTransactionStatus (r : StatusResponse) : M string :=
  if negb (sr_ok r) then throw "SourcePay API error"
  else if sr_success r then
    match sr_data r with
    | Some st => ret (mapStatus (option_map toLowerCase st))
    | None => ret "pending"
    end
  else ret "pending".

End WithLowerCase.

End SourcePay.

(** ** [WebhookService] *)

Module WebhookService.

(** JavaScript truthiness of [transaction.userId]. *)
Definition truthy (o : option string) : bool :=
  match o with
  | Some u => negb (String.eqb u "")
  | None => false
  end.

(** End date of the subscription from the clock reading [c] taken for it. *)
Definition planEndDate (p : string) (c : JsDate.DateF) : Z :=
  if String.eqb p "premium" || String.eqb p "basic" then
    JsDate.setMonth c (JsDate.month c + 1)
  else if String.eqb p "annual" then
    JsDate.setFullYear c (JsDate.year c + 1)
  else JsDate.setMonth c (JsDate.month c + 1).

Definition createSubscription (t : Transaction) : M unit :=
  try_catch
    (startC <- newDate ;;
     endC <- newDate ;;
     MemStorage.createSubscription
       (MemStorage.mkInsertSubscription (userId t) (tx_id t) (plan t)
          "active" (JsDate.timeValue startC) (planEndDate (plan t) endC)) ;;;
     log "Subscription created")
    (fun _ => log "Error creating subscription").

Definition handleFailedPayment (_ : Transaction) : M unit :=
  log "Payment failed".

Definition handleTransactionEvent (p : Payload) : M unit :=
  match data p with
  | None => throw "TypeError"
  | Some d =>
      found <- MemStorage.updateTransactionStatus (unic_id d) (pd_status d)
                 None ;;
      match found with
      | None => log "Transaction not found"
      | Some t =>
          (if String.eqb (pd_status d) "paid" && truthy (userId t)
           then createSubscription t else ret tt) ;;;
          (if String.eqb (pd_status d) "failed"
              || String.eqb (pd_status d) "cancelled"
           then handleFailedPayment t else ret tt)
      end
  end.

Definition processWebhookEvent (p : Payload) : M unit :=
  try_catch
    (match data p with
     | None => throw "TypeError"
     | Some d =>
         MemStorage.createWebhookEvent
           (MemStorage.mkInsertWebhookEvent (event_type p) (unic_id d) p
              false) ;;;
         handleTransactionEvent p
     end)
    (fun e => log "Error processing webhook event" ;;; throw e).

(** The [for ... of] loop of [processUnprocessedEvents]. *)
Fixpoint replayEvents (evs : list WebhookEvent) : M unit :=
  match evs with
  | [] => ret tt
  | ev :: rest =>
      try_catch
        (handleTransactionEvent (payload ev) ;;;
         MemStorage.markWebhookEventProcessed (ev_id ev))
        (fun _ => log "Error processing webhook event") ;;;
      replayEvents rest
  end.

Definition processUnprocessedEvents : M unit :=
  events <- MemStorage.getUnprocessedWebhookEvents ;;
  replayEvents events.

End WebhookService.

(** ** [checkoutFormSchema] and the routes of [registerRoutes] *)

Module Routes.

Record CheckoutForm := mkCheckoutForm {
  f_name : string;
  f_email : string;
  f_document : string;
  f_phone : string;
  f_plan : string;
  f_price : Z;      (** [z.number()]: copied unchanged by the route *)
  f_title : string
}.

Record HttpResponse := mkHttpResponse {
  httpStatus : Z;
  success : bool
}.

Section Routes.

(** zod's [z.string().email()] check. *)
Variable isEmail : string -> bool.

Definition checkoutFormValid (f : CheckoutForm) : bool :=
  (2 <=? Z.of_nat (String.length (f_name f)))%Z
  && isEmail (f_email f)
  && (Z.of_nat (String.length (f_document f)) =? 11)%Z
  && (10 <=? Z.of_nat (String.length (f_phone f)))%Z.

(** [checkoutFormSchema.parse]: throws a [ZodError] on an invalid form. *)
Definition parseCheckoutForm (f : CheckoutForm) : M CheckoutForm :=
  if checkoutFormValid f then ret f else throw "ZodError".

Definition decimal (t : Z) : string :=
  NilZero.string_of_int (Z.to_int t).

(** [`subscription_${Date.now()}_${randomUUID().slice(0, 8)}`]. *)
Definition mkExternalId (now : Z) (u : Uuid) : string :=
  "subscription_" ++ decimal now ++ "_"
  ++ substring 0 8 (decimal (Z.of_nat u)).

(** [POST /api/transactions/create]. *)
Definition createRoute (body : CheckoutForm) (gw : BullsPay.CreateResponse)
    : M HttpResponse :=
  try_catch
    (v <- parseCheckoutForm body ;;
     now <- newDate ;;
     u <- randomUUID ;;
     let ext := mkExternalId (JsDate.timeValue now) u in
     r <- BullsPay.createTransaction gw ;;
     MemStorage.createTransaction
       (MemStorage.mkInsertTransaction (BullsPay.cr_payment_id r) ext None
          (f_price v) "pending" "pix" (f_plan v) (f_title v)
          (mkBuyerInfo (f_name v) (f_email v) (f_document v) (f_phone v))
          (Some (mkPaymentData None (Some (BullsPay.cr_qrcode r)) None))) ;;;
     ret (mkHttpResponse 200 true))
    (fun _ => log "Error creating transaction" ;;;
              ret (mkHttpResponse 400 false)).

(** [GET /api/transactions/:unicId/status]. *)
Definition statusRoute (unic : string) (gw : BullsPay.ListResponse)
    : M HttpResponse :=
  try_catch
    (status <- BullsPay.checkTransactionStatus gw ;;
     MemStorage.updateTransactionStatus unic status None ;;;
     ret (mkHttpResponse 200 true))
    (fun _ => log "Error checking transaction status" ;;;
              ret (mkHttpResponse 500 false)).

(** [POST /api/webhook/bullspay]. *)
Definition webhookRoute (p : Payload) : M HttpResponse :=
  try_catch
    (WebhookService.processWebhookEvent p ;;;
     ret (mkHttpResponse 200 true))
    (fun _ => log "Error processing webhook" ;;;
              ret (mkHttpResponse 500 false)).

(** [POST /api/transactions/:unicId/refund]. *)
Definition refundRoute (unic : string) (gw : BullsPay.RefundResponse)
    : M HttpResponse :=
  try_catch
    (ok <- BullsPay.refundTransaction gw ;;
     (if ok then MemStorage.updateTransactionStatus unic "refunded" None ;;;
                 ret tt
      else ret tt) ;;;
     ret (mkHttpResponse 200 ok))
    (fun _ => log "Error refunding transaction" ;;;
              ret (mkHttpResponse 500 false)).

(** The startup [setTimeout] that replays the stored events. *)
Definition startupReplay : M unit :=
  try_catch WebhookService.processUnprocessedEvents
    (fun _ => log "Error processing unprocessed webhook events").

(** [GET /api/transactions/:unicId]: the response and its [data]. *)
Definition getTransactionRoute (unic : string)
    : M (HttpResponse * option Transaction) :=
  try_catch
    (found <- MemStorage.getTransactionByUnicId unic ;;
     match found with
     | None => ret (mkHttpResponse 404 false, None)
     | Some t => ret (mkHttpResponse 200 true, Some t)
     end)
    (fun _ => log "Error getting transaction" ;;;
              ret (mkHttpResponse 500 false, None)).

(** [GET /api/subscriptions]: [req.query.userId] is [None] when absent;
    [!userId] holds for an absent or empty parameter. *)
Definition subscriptionsRoute (q : option string)
    : M (HttpResponse * option Subscription) :=
  try_catch
    (match q with
     | Some u =>
         if String.eqb u "" then ret (mkHttpResponse 400 false, None)
         else sub <- MemStorage.getUserActiveSubscription u ;;
              ret (mkHttpResponse 200 true, sub)
     | None => ret (mkHttpResponse 400 false, None)
     end)
    (fun _ => log "Error getting subscriptions" ;;;
              ret (mkHttpResponse 500 false, None)).

End Routes.

End Routes.

(** ** Input masks of the checkout form ([CheckoutModal.tsx])

    The CPF and phone inputs display [formatCPF(field.value)] and
    [formatPhone(field.value)], and their [onChange] stores
    [value.replace(/\D/g, "")]. Strings are lists of characters; [\d] is
    [0-9]. *)

Module Client.

Definition isDigit (c : ascii) : bool :=
  let n := nat_of_ascii c in (48 <=? n)%nat && (n <=? 57)%nat.

(** [value.replace(/\D/g, "")]. *)
Definition digitsOnly (l : list ascii) : list ascii := filter isDigit l.

(** [cleaned.match(/^(\d{n1})(\d{n2})...$/)] on a string of digits, each
    group [\d{0,ni}] greedy: the first split the backtracking search
    accepts gives each group as many characters as it can; there is no
    match when characters are left over. *)
Fixpoint greedyGroups (sizes : list nat) (l : list ascii)
    : option (list (list ascii)) :=
  match sizes with
  | [] => match l with [] => Some [] | _ => None end
  | n :: r =>
      match greedyGroups r (skipn n l) with
      | Some gs => Some (firstn n l :: gs)
      | None => None
      end
  end.

(** [[...].filter(Boolean).join(sep)]. *)
Fixpoint joinWith (sep : list ascii) (gs : list (list ascii)) : list ascii :=
  match gs with
  | [] => []
  | [g] => g
  | g :: r => (g ++ sep ++ joinWith sep r)%list
  end.

Definition nonEmpty (g : list ascii) : bool :=
  match g with [] => false | _ => true end.

(** [.replace(/\.(\d{2})$/, "-$1")]. *)
Definition replaceDotPairAtEnd (l : list ascii) : list ascii :=
  match rev l with
  | d2 :: d1 :: c :: rpre =>
      if Ascii.eqb c "."%char && isDigit d1 && isDigit d2
      then (rev rpre ++ ["-"%char; d1; d2])%list
      else l
  | _ => l
  end.

(** [.replace(/^(\d{2})/, "($1)")]. *)
Definition parenthesizeLeadingPair (l : list ascii) : list ascii :=
  match l with
  | d1 :: d2 :: rest =>
      if isDigit d1 && isDigit d2
      then ("("%char :: d1 :: d2 :: ")"%char :: rest)%list
      else l
  | _ => l
  end.

(** [.replace(/(\d{5})$/, " $1")]: the only possible match is the last five
    characters. *)
Definition spaceBeforeLastFive (l : list ascii) : list ascii :=
  let n := length l in
  if (5 <=? n)%nat && forallb isDigit (skipn (n - 5) l)
  then (firstn (n - 5) l ++ " "%char :: skipn (n - 5) l)%list
  else l.

(** [.replace(/ (\d{4})$/, "-$1")]. *)
Definition dashBeforeLastFour (l : list ascii) : list ascii :=
  match rev l with
  | d4 :: d3 :: d2 :: d1 :: c :: rpre =>
      if Ascii.eqb c " "%char && isDigit d1 && isDigit d2 && isDigit d3
         && isDigit d4
      then (rev rpre ++ ["-"%char; d1; d2; d3; d4])%list
      else l
  | _ => l
  end.

Definition formatCPF (value : list ascii) : list ascii :=
  let cleaned := digitsOnly value in
  match greedyGroups [3; 3; 3; 2]%nat cleaned with
  | Some gs => replaceDotPairAtEnd (joinWith ["."%char] (filter nonEmpty gs))
  | None => value
  end.

Definition formatPhone (value : list ascii) : list ascii :=
  let cleaned := digitsOnly value in
  match greedyGroups [2; 5; 4]%nat cleaned with
  | Some gs =>
      let formatted :=
        spaceBeforeLastFive
          (parenthesizeLeadingPair (joinWith [" "%char] (filter nonEmpty gs))) in
      dashBeforeLastFour formatted
  | None => value
  end.

End Client.

(** ** Well-formed stores and sample data *)

Definition keys {V} (m : JsMap V) : list Uuid := map fst m.

Fixpoint nodupb (l : list nat) : bool :=
  match l with
  | [] => true
  | x :: r => negb (existsb (Nat.eqb x) r) && nodupb r
  end.

(** What [MemStorage] maintains: each map has distinct keys, every key is
    the stored object's own id, and every id is below the next fresh one. *)
Definition wf_store (s : Store) : bool :=
  nodupb (keys (transactions s))
  && nodupb (keys (subscriptions s))
  && nodupb (keys (webhookEvents s))
  && forallb (fun kv => Nat.eqb (fst kv) (tx_id (snd kv))) (transactions s)
  && forallb (fun kv => Nat.eqb (fst kv) (sub_id (snd kv))) (subscriptions s)
  && forallb (fun kv => Nat.eqb (fst kv) (ev_id (snd kv))) (webhookEvents s)
  && forallb (fun k => Nat.ltb k (nextUuid s))
       (keys (transactions s) ++ keys (subscriptions s)
        ++ keys (webhookEvents s)).

Definition emptyStore (c : nat -> JsDate.DateF) : Store :=
  mkStore [] [] [] 0%nat c 0%nat.

(** A clock standing at 2025-01-15 00:00:00.000 that ticks one millisecond
    per reading. *)
Definition tickingClock (n : nat) : JsDate.DateF :=
  JsDate.mkDateF 2025 0 15 (Z.of_nat n).

Definition sampleBuyer : BuyerInfo :=
  mkBuyerInfo "Ana" "ana@example.com" "12345678901" "11999999999".

(** A pending transaction [abc] of user [u1] on plan [pl]. *)
Definition sampleTx (pl : string) : Transaction :=
  mkTransaction 0%nat "abc" "subscription_0_0" (Some "u1") 2990 "pending" "pix"
    pl "Acesso VIP - Mensal" sampleBuyer None 0 0.

Definition sampleStore (pl : string) : Store :=
  mkStore [(0%nat, sampleTx pl)] [] [] 1%nat tickingClock 0%nat.

Definition paidData : PayloadData :=
  mkPayloadData "abc" "subscription_0_0" "paid" 2990.

Definition paidPayload : Payload :=
  mkPayload "transaction.updated" (Some paidData).

(** A webhook body without [data]. *)
Definition malformedPayload : Payload := mkPayload "transaction.updated" None.

(** Two stored, unprocessed events: a malformed one (id 1) followed by a
    [paid] event for [abc] (id 2). *)
Definition replayStore : Store :=
  mkStore [(0%nat, sampleTx "premium")] []
    [(1%nat, mkWebhookEvent 1%nat "transaction.updated" "" malformedPayload
               false 0);
     (2%nat, mkWebhookEvent 2%nat "transaction.updated" "abc" paidPayload
               false 0)]
    3%nat tickingClock 0%nat.

Definition st_after {A} (m : M A) (s : Store) : Store := snd (m s).
Definition res_of {A} (m : M A) (s : Store) : outcome A := fst (m s).

(** * Properties *)

(** ** Maps *)

Section MapLemmas.

Context {V : Type}.

Lemma map_get_set_eq (k : Uuid) (v : V) (m : JsMap V) :
  map_get k (map_set k v m) = Some v.
Proof.
  induction m as [|[k' v'] r IH]; simpl.
  - now rewrite Nat.eqb_refl.
  - destruct (Nat.eqb k k') eqn:E; simpl.
    + now rewrite Nat.eqb_refl.
    + now rewrite E.
Qed.

Lemma map_get_set_neq (k k2 : Uuid) (v : V) (m : JsMap V) :
  k <> k2 -> map_get k2 (map_set k v m) = map_get k2 m.
Proof.
  intros Hne. induction m as [|[k' v'] r IH]; simpl.
  - destruct (Nat.eqb k2 k) eqn:E; [apply Nat.eqb_eq in E; congruence|auto].
  - destruct (Nat.eqb k k') eqn:E; simpl.
    + apply Nat.eqb_eq in E; subst k'.
      destruct (Nat.eqb k2 k) eqn:E2; [apply Nat.eqb_eq in E2; congruence|auto].
    + now rewrite IH.
Qed.

Lemma In_map_set (k : Uuid) (v : V) (m : JsMap V) kv :
  In kv (map_set k v m) -> kv = (k, v) \/ In kv m.
Proof.
  induction m as [|[k' v'] r IH]; simpl.
  - intros [H|[]]; auto.
  - destruct (Nat.eqb k k'); simpl; intros [H|H]; auto.
    destruct (IH H); auto.
Qed.

Lemma In_map_set_self (k : Uuid) (v : V) (m : JsMap V) :
  In (k, v) (map_set k v m).
Proof.
  induction m as [|[k' v'] r IH]; simpl; auto.
  destruct (Nat.eqb k k'); simpl; auto.
Qed.

Lemma keys_map_set_fresh (k : Uuid) (v : V) (m : JsMap V) :
  ~ In k (keys m) -> keys (map_set k v m) = (keys m ++ [k])%list.
Proof.
  induction m as [|[k' v'] r IH]; simpl; auto.
  intros Hn. destruct (Nat.eqb k k') eqn:E.
  - apply Nat.eqb_eq in E; subst; tauto.
  - simpl. rewrite IH; auto.
Qed.

Lemma length_map_set_fresh (k : Uuid) (v : V) (m : JsMap V) :
  ~ In k (keys m) -> length (map_set k v m) = S (length m).
Proof.
  intros Hn.
  pose proof (f_equal (@length Uuid) (keys_map_set_fresh k v m Hn)) as H.
  unfold keys in H. rewrite length_app, !length_map in H. simpl in H. lia.
Qed.

End MapLemmas.

Lemma nodupb_NoDup (l : list nat) : nodupb l = true -> NoDup l.
Proof.
  induction l as [|x r IH]; simpl; intros H; constructor.
  - apply andb_prop in H as [H1 _]. intros Hin.
    apply negb_true_iff in H1.
    assert (existsb (Nat.eqb x) r = true) by
      (apply existsb_exists; exists x; split; auto; apply Nat.eqb_refl).
    congruence.
  - apply andb_prop in H as [_ H2]. auto.
Qed.

Lemma find_some_In {A} (f : A -> bool) (l : list A) x :
  find f l = Some x -> In x l /\ f x = true.
Proof.
  induction l as [|a r IH]; simpl; [discriminate|].
  destruct (f a) eqn:E; intros H.
  - injection H as <-. auto.
  - destruct (IH H); auto.
Qed.

Lemma wf_store_props (s : Store) :
  wf_store s = true ->
  NoDup (keys (transactions s)) /\ NoDup (keys (subscriptions s))
  /\ NoDup (keys (webhookEvents s))
  /\ (forall kv, In kv (transactions s) -> fst kv = tx_id (snd kv))
  /\ (forall kv, In kv (subscriptions s) -> fst kv = sub_id (snd kv))
  /\ (forall kv, In kv (webhookEvents s) -> fst kv = ev_id (snd kv))
  /\ (forall k, In k (keys (transactions s)) \/ In k (keys (subscriptions s))
                \/ In k (keys (webhookEvents s)) -> (k < nextUuid s)%nat).
Proof.
  unfold wf_store. intros H.
  repeat match goal with
         | H : (_ && _)%bool = true |- _ => apply andb_prop in H as [? ?]
         end.
  repeat split; try (apply nodupb_NoDup; assumption).
  all: intros x Hx.
  all: match goal with
       | Hf : forallb _ ?l = true |- _ =>
           rewrite forallb_forall in Hf;
           first [ apply Nat.eqb_eq; exact (Hf x Hx)
                 | apply Nat.ltb_lt; apply Hf; rewrite !in_app_iff; exact Hx ]
       end.
Qed.

(** Looking a transaction up by [unicId] after it was set back under its
    own id finds the updated object. *)
Lemma find_unicId_map_set (m : JsMap Transaction) (u : string)
    (t t' : Transaction) :
  NoDup (keys m) ->
  (forall kv, In kv m -> fst kv = tx_id (snd kv)) ->
  find (fun x => String.eqb (unicId x) u) (map_values m) = Some t ->
  unicId t' = unicId t -> tx_id t' = tx_id t ->
  find (fun x => String.eqb (unicId x) u) (map_values (map_set (tx_id t) t' m))
  = Some t'.
Proof.
  intros Hnd Hid. induction m as [|[k0 v0] r IH]; simpl; [discriminate|].
  inversion Hnd as [|? ? Hk0 Hndr]; subst.
  destruct (String.eqb (unicId v0) u) eqn:Eu.
  - intros Heq Hu Hi. injection Heq as <-.
    assert (k0 = tx_id v0) as Hk by (apply (Hid (k0, v0)); left; auto).
    rewrite <- Hk, Nat.eqb_refl. simpl.
    apply String.eqb_eq in Eu. rewrite Hu, Eu, String.eqb_refl. reflexivity.
  - intros Hf Hu Hi.
    destruct (find_some_In _ _ _ Hf) as [Hin _].
    apply in_map_iff in Hin as [[k1 t1] [Ht1 Hin1]]. simpl in Ht1. subst t1.
    assert (k1 = tx_id t) as Hk1 by (apply (Hid (k1, t)); right; auto).
    assert (tx_id t <> k0) as Hne.
    { intros E. apply Hk0. rewrite <- E, <- Hk1.
      apply in_map_iff. exists (k1, t). auto. }
    apply Nat.eqb_neq in Hne. rewrite Hne. simpl. rewrite Eu.
    apply IH; auto. intros kv Hkv. apply Hid. right. exact Hkv.
Qed.

(** ** One run of the storage and service operations *)

Definition findByUnicId (u : string) (m : JsMap Transaction)
    : option Transaction :=
  find (fun x => String.eqb (unicId x) u) (map_values m).

Lemma updateTransactionStatus_found (u status : string)
    (pd : option PaymentData) (st : Store) (t : Transaction) :
  findByUnicId u (transactions st) = Some t ->
  MemStorage.updateTransactionStatus u status pd st =
  (Ret (Some (MemStorage.assignStatus t status pd
                (JsDate.timeValue (clock st (ticks st))))),
   mkStore
     (map_set (tx_id t)
        (MemStorage.assignStatus t status pd
           (JsDate.timeValue (clock st (ticks st))))
        (transactions st))
     (subscriptions st) (webhookEvents st) (nextUuid st) (clock st)
     (S (ticks st))).
Proof.
  unfold findByUnicId. intros H. destruct st. simpl in *.
  unfold MemStorage.updateTransactionStatus, MemStorage.getTransactionByUnicId,
    bind, get_store, ret; simpl. rewrite H. reflexivity.
Qed.

Lemma updateTransactionStatus_missing (u status : string)
    (pd : option PaymentData) (st : Store) :
  findByUnicId u (transactions st) = None ->
  MemStorage.updateTransactionStatus u status pd st = (Ret None, st).
Proof.
  unfold findByUnicId. intros H.
  unfold MemStorage.updateTransactionStatus, MemStorage.getTransactionByUnicId,
    bind, get_store, ret; simpl. rewrite H. reflexivity.
Qed.

(** The subscription [createSubscription] inserts, from the clock readings
    [c0] (for [startDate]), [c1] (for [endDate]) and [c2] (for
    [createdAt]). *)
Definition subscriptionOf (t : Transaction) (id : Uuid)
    (c0 c1 c2 : JsDate.DateF) : Subscription :=
  mkSubscription id (userId t) (tx_id t) (plan t) "active"
    (JsDate.timeValue c0) (WebhookService.planEndDate (plan t) c1)
    (JsDate.timeValue c2).

Lemma createSubscription_eq (t : Transaction) (st : Store) :
  WebhookService.createSubscription t st =
  (Ret tt,
   mkStore (transactions st)
     (map_set (nextUuid st)
        (subscriptionOf t (nextUuid st) (clock st (ticks st))
           (clock st (S (ticks st))) (clock st (S (S (ticks st)))))
        (subscriptions st))
     (webhookEvents st) (S (nextUuid st)) (clock st)
     (S (S (S (ticks st))))).
Proof. destruct st. reflexivity. Qed.

Lemma handleTransactionEvent_missing_data (p : Payload) (st : Store) :
  data p = None ->
  WebhookService.handleTransactionEvent p st = (Throw "TypeError", st).
Proof.
  intros H. unfold WebhookService.handleTransactionEvent. rewrite H.
  reflexivity.
Qed.

Lemma handleTransactionEvent_not_found (p : Payload) (d : PayloadData)
    (st : Store) :
  data p = Some d -> findByUnicId (unic_id d) (transactions st) = None ->
  WebhookService.handleTransactionEvent p st = (Ret tt, st).
Proof.
  intros Hd Hf. unfold WebhookService.handleTransactionEvent. rewrite Hd.
  unfold bind at 1. rewrite updateTransactionStatus_missing by exact Hf.
  reflexivity.
Qed.

(** The store after the status assignment of [handleTransactionEvent]. *)
Definition storeAfterUpdate (st : Store) (t : Transaction) (status : string)
    : Store :=
  mkStore
    (map_set (tx_id t)
       (MemStorage.assignStatus t status None
          (JsDate.timeValue (clock st (ticks st))))
       (transactions st))
    (subscriptions st) (webhookEvents st) (nextUuid st) (clock st)
    (S (ticks st)).

Lemma handleTransactionEvent_found (p : Payload) (d : PayloadData)
    (st : Store) (t : Transaction) :
  data p = Some d -> findByUnicId (unic_id d) (transactions st) = Some t ->
  let st1 := storeAfterUpdate st t (pd_status d) in
  let t1 := MemStorage.assignStatus t (pd_status d) None
              (JsDate.timeValue (clock st (ticks st))) in
  WebhookService.handleTransactionEvent p st =
  (Ret tt,
   if String.eqb (pd_status d) "paid" && WebhookService.truthy (userId t)
   then snd (WebhookService.createSubscription t1 st1)
   else st1).
Proof.
  intros Hd Hf st1 t1. unfold WebhookService.handleTransactionEvent.
  rewrite Hd. unfold bind at 1.
  rewrite updateTransactionStatus_found with (t := t) by exact Hf.
  fold t1. fold st1.
  assert (userId t1 = userId t) as Hu by reflexivity.
  rewrite Hu.
  destruct (String.eqb (pd_status d) "paid" && WebhookService.truthy (userId t)).
  - unfold bind. rewrite createSubscription_eq.
    destruct (String.eqb (pd_status d) "failed"
              || String.eqb (pd_status d) "cancelled"); reflexivity.
  - unfold bind, ret.
    destruct (String.eqb (pd_status d) "failed"
              || String.eqb (pd_status d) "cancelled"); reflexivity.
Qed.

Lemma map_set_fresh {V} (k : Uuid) (v : V) (m : JsMap V) :
  ~ In k (keys m) -> map_set k v m = (m ++ [(k, v)])%list.
Proof.
  induction m as [|[k' v'] r IH]; simpl; auto.
  intros Hn. destruct (Nat.eqb k k') eqn:E.
  - apply Nat.eqb_eq in E; subst; tauto.
  - rewrite IH; auto.
Qed.

(** Number of stored subscriptions created for transaction [tid]. *)
Definition countForTransaction (tid : Uuid) (m : JsMap Subscription) : nat :=
  length (filter (fun kv => Nat.eqb (sub_transactionId (snd kv)) tid) m).

Lemma countForTransaction_app (tid : Uuid) (m : JsMap Subscription) k sub :
  countForTransaction tid (m ++ [(k, sub)])%list
  = (countForTransaction tid m
     + (if Nat.eqb (sub_transactionId sub) tid then 1 else 0))%nat.
Proof.
  unfold countForTransaction. rewrite filter_app, length_app. simpl.
  destruct (Nat.eqb (sub_transactionId sub) tid); reflexivity.
Qed.

(** Two [paid] events in a row for the same transaction. *)
Definition paidTwice (p : Payload) : M unit :=
  WebhookService.handleTransactionEvent p ;;;
  WebhookService.handleTransactionEvent p.

(** ** C1: repeated [paid] events *)

(** C1 (failing input): a transaction [abc] of user [u1] on plan
    [premium], sent [paid] twice, ends with two subscriptions for it. *)
Lemma C1_paid_twice_two_subscriptions :
  countForTransaction 0%nat
    (subscriptions (st_after (paidTwice paidPayload) (sampleStore "premium")))
  = 2%nat.
Proof. vm_compute. reflexivity. Qed.

(** C1 (divergence): in a well-formed store, each [paid] event for a stored
    transaction whose user is set inserts one more subscription for that
    transaction, although the handler's comment announces "create or
    update subscription": no existing subscription is looked up, so two
    such events in a row leave two new subscriptions for it, and the store
    gains exactly two subscriptions. *)
Theorem handleTransactionEvent_paid_twice (st : Store) (p : Payload)
    (d : PayloadData) (t : Transaction) :
  wf_store st = true ->
  data p = Some d -> pd_status d = "paid" ->
  findByUnicId (unic_id d) (transactions st) = Some t ->
  WebhookService.truthy (userId t) = true ->
  length (subscriptions (st_after (paidTwice p) st))
    = (length (subscriptions st) + 2)%nat
  /\ countForTransaction (tx_id t) (subscriptions (st_after (paidTwice p) st))
    = (countForTransaction (tx_id t) (subscriptions st) + 2)%nat.
Proof.
  intros Hwf Hd Hs Hf Hu.
  destruct (wf_store_props st Hwf)
    as (Hndt & _ & _ & Hidt & _ & _ & Hlt).
  unfold st_after, paidTwice, bind.
  rewrite (handleTransactionEvent_found p d st t Hd Hf).
  rewrite Hs, Hu. simpl (String.eqb "paid" "paid" && true).
  rewrite createSubscription_eq. simpl.
  set (t1 := MemStorage.assignStatus t "paid" None
               (JsDate.timeValue (clock st (ticks st)))).
  set (st1 := mkStore (map_set (tx_id t) t1 (transactions st))
                (map_set (nextUuid st) _ (subscriptions st))
                (webhookEvents st) (S (nextUuid st)) (clock st)
                (S (S (S (S (ticks st)))))).
  assert (Hf1 : findByUnicId (unic_id d) (transactions st1) = Some t1).
  { unfold findByUnicId in *. simpl.
    apply find_unicId_map_set; auto. }
  rewrite (handleTransactionEvent_found p d st1 t1 Hd Hf1).
  rewrite Hs. change (userId t1) with (userId t). rewrite Hu.
  simpl (String.eqb "paid" "paid" && true).
  rewrite createSubscription_eq. simpl.
  assert (Hn : ~ In (nextUuid st) (keys (subscriptions st))).
  { intros Hin. specialize (Hlt _ (or_intror (or_introl Hin))). lia. }
  rewrite (map_set_fresh (nextUuid st)) by exact Hn.
  rewrite map_set_fresh.
  2:{ unfold keys. rewrite map_app, in_app_iff. simpl.
      intros [Hin|[E|[]]]; [|lia].
      specialize (Hlt _ (or_intror (or_introl Hin))). lia. }
  split.
  - rewrite !length_app. simpl. lia.
  - rewrite !countForTransaction_app. simpl. rewrite Nat.eqb_refl.
    lia.
Qed.

Lemma handleTransactionEvent_paid_twice_witness :
  wf_store (sampleStore "premium") = true
  /\ length (subscriptions (st_after (paidTwice paidPayload)
                              (sampleStore "premium"))) = 2%nat
  /\ countForTransaction 0%nat
       (subscriptions (st_after (paidTwice paidPayload)
                         (sampleStore "premium"))) = 2%nat.
Proof.
  split; [reflexivity|].
  apply (handleTransactionEvent_paid_twice (sampleStore "premium")
           paidPayload paidData (sampleTx "premium"));
    reflexivity.
Defined.

(** ** C2: the polling path and the webhook path *)

Lemma BullsPay_checkTransactionStatus_store (gw : BullsPay.ListResponse)
    (st : Store) :
  BullsPay.checkTransactionStatus gw st
  = (res_of (BullsPay.checkTransactionStatus gw) st, st).
Proof.
  unfold res_of, BullsPay.checkTransactionStatus, throw, ret.
  destruct (negb (BullsPay.lr_ok gw)); [reflexivity|].
  destruct (BullsPay.lr_success gw); [|reflexivity].
  destruct (BullsPay.lr_transactions gw) as [[|x r]|]; reflexivity.
Qed.

(** The listing reply of a provider reporting [s] for the transaction. *)
Definition listingOf (s : string) : BullsPay.ListResponse :=
  BullsPay.mkListResponse true true (Some [s]).

(** C2 (counterexample): for transaction [abc] of user [u1], [paid] reported
    by polling creates no subscription, while [paid] delivered to the
    webhook handler creates one. *)
Lemma C2_poll_paid_creates_no_subscription :
  subscriptions (st_after (Routes.statusRoute "abc" (listingOf "paid"))
                   (sampleStore "premium")) = []
  /\ length (subscriptions
               (st_after (WebhookService.handleTransactionEvent paidPayload)
                  (sampleStore "premium"))) = 1%nat.
Proof. split; vm_compute; reflexivity. Qed.

(** C2 (amended): when the gateway reports status [pd_status d] for
    [unic_id d], the polling route leaves the same transactions as the
    webhook handler on a payload carrying that status, but it leaves the
    subscriptions (and the stored webhook events) untouched: only the
    status assignment is shared, not the subscription rule. *)
Theorem statusRoute_shares_only_status_update (st : Store)
    (gw : BullsPay.ListResponse) (p : Payload) (d : PayloadData) :
  data p = Some d ->
  res_of (BullsPay.checkTransactionStatus gw) st = Ret (pd_status d) ->
  transactions (st_after (Routes.statusRoute (unic_id d) gw) st)
    = transactions (st_after (WebhookService.handleTransactionEvent p) st)
  /\ subscriptions (st_after (Routes.statusRoute (unic_id d) gw) st)
    = subscriptions st
  /\ webhookEvents (st_after (Routes.statusRoute (unic_id d) gw) st)
    = webhookEvents st.
Proof.
  intros Hd Hgw. unfold st_after, Routes.statusRoute, try_catch, bind.
  rewrite BullsPay_checkTransactionStatus_store, Hgw.
  destruct (findByUnicId (unic_id d) (transactions st)) as [t|] eqn:Ef.
  - rewrite (handleTransactionEvent_found p d st t Hd Ef).
    rewrite updateTransactionStatus_found with (t := t) by exact Ef.
    destruct (String.eqb (pd_status d) "paid"
              && WebhookService.truthy (userId t)).
    + rewrite createSubscription_eq. simpl. auto.
    + simpl. auto.
  - rewrite (handleTransactionEvent_not_found p d st Hd Ef).
    rewrite updateTransactionStatus_missing by exact Ef.
    simpl. auto.
Qed.

Lemma statusRoute_shares_only_status_update_witness :
  transactions (st_after (Routes.statusRoute "abc" (listingOf "paid"))
                  (sampleStore "premium"))
    = transactions (st_after (WebhookService.handleTransactionEvent
                                paidPayload) (sampleStore "premium"))
  /\ subscriptions (st_after (Routes.statusRoute "abc" (listingOf "paid"))
                      (sampleStore "premium"))
    = subscriptions (sampleStore "premium")
  /\ webhookEvents (st_after (Routes.statusRoute "abc" (listingOf "paid"))
                      (sampleStore "premium"))
    = webhookEvents (sampleStore "premium").
Proof.
  apply (statusRoute_shares_only_status_update (sampleStore "premium")
           (listingOf "paid") paidPayload paidData); reflexivity.
Defined.

(** ** C3: a stale status after [paid] *)

(** Stored status of the transaction with [unicId] [u]. *)
Definition storedStatus (u : string) (st : Store) : option string :=
  option_map tx_status (findByUnicId u (transactions st)).

(** C3 (counterexample): transaction [abc] is set to [paid] by the webhook;
    a poll that then reads [pending] from the gateway stores [pending]. *)
Lemma C3_stale_pending_regresses_paid :
  let st1 := st_after (WebhookService.handleTransactionEvent paidPayload)
               (sampleStore "premium") in
  let st2 := st_after (Routes.statusRoute "abc" (listingOf "pending")) st1 in
  storedStatus "abc" st1 = Some "paid"
  /\ storedStatus "abc" st2 = Some "pending".
Proof. split; vm_compute; reflexivity. Qed.

(** C3 (amended): in a well-formed store, [updateTransactionStatus]
    overwrites the stored status of the transaction with the given one,
    whatever the stored status was: the last update wins, and no order of
    statuses is enforced. *)
Theorem updateTransactionStatus_last_write_wins (st : Store)
    (u s : string) (pd : option PaymentData) (t : Transaction) :
  wf_store st = true ->
  findByUnicId u (transactions st) = Some t ->
  storedStatus u (st_after (MemStorage.updateTransactionStatus u s pd) st)
  = Some s.
Proof.
  intros Hwf Hf.
  destruct (wf_store_props st Hwf) as (Hndt & _ & _ & Hidt & _).
  unfold st_after, storedStatus.
  rewrite updateTransactionStatus_found with (t := t) by exact Hf.
  simpl. unfold findByUnicId in *.
  rewrite (find_unicId_map_set (transactions st) u t); auto.
Qed.

Lemma updateTransactionStatus_last_write_wins_witness :
  storedStatus "abc"
    (st_after (MemStorage.updateTransactionStatus "abc" "pending" None)
       (st_after (WebhookService.handleTransactionEvent paidPayload)
          (sampleStore "premium")))
  = Some "pending".
Proof.
  apply (updateTransactionStatus_last_write_wins _ "abc" "pending" None
           (MemStorage.assignStatus (sampleTx "premium") "paid" None
              (JsDate.timeValue (tickingClock 0))));
    vm_compute; reflexivity.
Defined.

(** ** C4: status vocabulary of the gateway clients *)

(** The provider codes [SourcePay.mapStatus] recognises. *)
Definition sourcePayVocabulary : list string :=
  ["paid"; "approved"; "pending"; "waiting_payment"; "failed"; "cancelled";
   "expired"].

Lemma SourcePay_mapStatus_range (o : option string) :
  SourcePay.mapStatus o = "paid" \/ SourcePay.mapStatus o = "pending"
  \/ SourcePay.mapStatus o = "failed".
Proof.
  unfold SourcePay.mapStatus. destruct o as [s|]; [|auto].
  repeat match goal with |- context [if ?b then _ else _] => destruct b end;
    auto.
Qed.

(** C4 (counterexample): the BullsPay client, the one the routes call,
    returns the provider code [approved] as it is. *)
Lemma C4_bullspay_returns_unmapped_code :
  res_of (BullsPay.checkTransactionStatus (listingOf "approved"))
    (emptyStore tickingClock) = Ret "approved"
  /\ ~ In "approved" ["pending"; "paid"; "failed"; "cancelled"].
Proof.
  split; [reflexivity|].
  simpl. intros H. repeat destruct H as [H|H]; try discriminate; exact H.
Qed.

(** C4 (amended): the SourcePay client returns [paid], [pending] or
    [failed] whenever it returns, and a code outside its vocabulary maps
    to [pending]; the BullsPay client returns the first status of any
    non-empty successful listing verbatim, whatever follows it, and
    [pending] when the listing is unsuccessful or empty. *)
Theorem gateway_checkTransactionStatus_results
    (toLowerCase : string -> string) (r : SourcePay.StatusResponse)
    (st : Store) (s : string) (rest : list string)
    (l : option (list string)) :
  (match res_of (SourcePay.checkTransactionStatus toLowerCase r) st with
   | Ret v => v = "paid" \/ v = "pending" \/ v = "failed"
   | Throw _ => True
   end)
  /\ (In s sourcePayVocabulary \/ SourcePay.mapStatus (Some s) = "pending")
  /\ res_of (BullsPay.checkTransactionStatus
               (BullsPay.mkListResponse true true (Some (s :: rest)))) st
     = Ret s
  /\ res_of (BullsPay.checkTransactionStatus
               (BullsPay.mkListResponse true false l)) st = Ret "pending"
  /\ res_of (BullsPay.checkTransactionStatus
               (BullsPay.mkListResponse true true (Some []))) st
     = Ret "pending".
Proof.
  repeat split.
  - unfold res_of, SourcePay.checkTransactionStatus, throw, ret.
    destruct (negb (SourcePay.sr_ok r)); [exact I|].
    destruct (SourcePay.sr_success r); [|simpl; auto].
    destruct (SourcePay.sr_data r); simpl; [apply SourcePay_mapStatus_range|].
    auto.
  - destruct (in_dec string_dec s sourcePayVocabulary) as [Hin|Hn];
      [left; exact Hin|right].
    unfold SourcePay.mapStatus.
    repeat match goal with
           | |- context [String.eqb s ?c] =>
               replace (String.eqb s c) with false
                 by (symmetry; apply String.eqb_neq; intros ->; apply Hn;
                     simpl; tauto)
           end.
    reflexivity.
Qed.

(** ** C5: replay of the stored webhook events *)

(** Whether the handler returns without throwing on store [st]. *)
Definition handler_ok (st : Store) (p : Payload) : bool :=
  match res_of (WebhookService.handleTransactionEvent p) st with
  | Ret _ => true
  | Throw _ => false
  end.

Definition payloadOk (p : Payload) : bool :=
  match data p with Some _ => true | None => false end.

Definition setProcessed (e : WebhookEvent) : WebhookEvent :=
  mkWebhookEvent (ev_id e) (eventType e) (ev_transactionId e) (payload e)
    true (ev_createdAt e).

Definition markedEvents (id : Uuid) (m : JsMap WebhookEvent)
    : JsMap WebhookEvent :=
  match map_get id m with
  | Some e => map_set id (setProcessed e) m
  | None => m
  end.

Lemma handleTransactionEvent_ok (p : Payload) (st : Store) :
  payloadOk p = true ->
  exists st1, WebhookService.handleTransactionEvent p st = (Ret tt, st1)
              /\ webhookEvents st1 = webhookEvents st.
Proof.
  unfold payloadOk. destruct (data p) as [d|] eqn:Hd; [intros _|discriminate].
  destruct (findByUnicId (unic_id d) (transactions st)) as [t|] eqn:Ef.
  - rewrite (handleTransactionEvent_found p d st t Hd Ef).
    eexists; split; [reflexivity|].
    destruct (String.eqb (pd_status d) "paid"
              && WebhookService.truthy (userId t)).
    + rewrite createSubscription_eq. reflexivity.
    + reflexivity.
  - rewrite (handleTransactionEvent_not_found p d st Hd Ef).
    eexists; split; reflexivity.
Qed.

(** Whether the handler completes depends only on the payload. *)
Lemma handler_ok_payloadOk (st : Store) (p : Payload) :
  handler_ok st p = payloadOk p.
Proof.
  destruct (payloadOk p) eqn:Hp.
  - destruct (handleTransactionEvent_ok p st Hp) as [st1 [E _]].
    unfold handler_ok, res_of. rewrite E. reflexivity.
  - unfold payloadOk in Hp. destruct (data p) eqn:Hd; [discriminate|].
    unfold handler_ok, res_of.
    rewrite handleTransactionEvent_missing_data by exact Hd. reflexivity.
Qed.

Lemma markWebhookEventProcessed_eq (id : Uuid) (st : Store) :
  res_of (MemStorage.markWebhookEventProcessed id) st = Ret tt
  /\ webhookEvents (st_after (MemStorage.markWebhookEventProcessed id) st)
     = markedEvents id (webhookEvents st).
Proof.
  unfold res_of, st_after, MemStorage.markWebhookEventProcessed, markedEvents,
    bind, get_store.
  destruct (map_get id (webhookEvents st)); split; reflexivity.
Qed.

Lemma map_get_markedEvents (id k : Uuid) (m : JsMap WebhookEvent) :
  map_get k (markedEvents id m)
  = if Nat.eqb id k then option_map setProcessed (map_get k m)
    else map_get k m.
Proof.
  unfold markedEvents. destruct (Nat.eqb id k) eqn:E.
  - apply Nat.eqb_eq in E. subst k.
    destruct (map_get id m) eqn:G; simpl;
      [apply map_get_set_eq|first [reflexivity|exact G]].
  - apply Nat.eqb_neq in E.
    destruct (map_get id m); [apply map_get_set_neq; exact E|reflexivity].
Qed.

Lemma find_none_forall {A} (f : A -> bool) (l : list A) :
  (forall x, In x l -> f x = false) -> find f l = None.
Proof.
  induction l as [|a r IH]; simpl; auto.
  intros H. rewrite (H a (or_introl eq_refl)). apply IH. auto.
Qed.

(** The replay loop over a list of events with distinct ids: it always
    returns, and the entry under key [k] ends marked processed exactly when
    the event of the list with id [k] has a payload the handler accepts. *)
Lemma replayEvents_get (evs : list WebhookEvent) (st : Store) (k : Uuid) :
  NoDup (map ev_id evs) ->
  res_of (WebhookService.replayEvents evs) st = Ret tt
  /\ map_get k (webhookEvents (st_after (WebhookService.replayEvents evs) st))
     = match find (fun e => Nat.eqb (ev_id e) k) evs with
       | Some ev =>
           if payloadOk (payload ev)
           then option_map setProcessed (map_get k (webhookEvents st))
           else map_get k (webhookEvents st)
       | None => map_get k (webhookEvents st)
       end.
Proof.
  revert st. induction evs as [|ev rest IH]; intros st Hnd.
  - split; reflexivity.
  - inversion Hnd as [|? ? Hnin Hndr]; subst.
    (* the store after the body of the loop for [ev] *)
    assert (Hstep : exists st2,
               try_catch
                 (WebhookService.handleTransactionEvent (payload ev) ;;;
                  MemStorage.markWebhookEventProcessed (ev_id ev))
                 (fun _ => log "Error processing webhook event") st
               = (Ret tt, st2)
               /\ webhookEvents st2
                  = if payloadOk (payload ev)
                    then markedEvents (ev_id ev) (webhookEvents st)
                    else webhookEvents st).
    { destruct (payloadOk (payload ev)) eqn:Hp.
      - destruct (handleTransactionEvent_ok _ st Hp) as [st1 [E1 W1]].
        destruct (markWebhookEventProcessed_eq (ev_id ev) st1) as [R2 W2].
        unfold res_of, st_after in R2, W2.
        exists (snd (MemStorage.markWebhookEventProcessed (ev_id ev) st1)).
        unfold try_catch, bind. rewrite E1.
        destruct (MemStorage.markWebhookEventProcessed (ev_id ev) st1)
          as [o s2] eqn:E2.
        simpl in R2. subst o. split; [reflexivity|].
        simpl in W2 |- *. rewrite W2, W1. reflexivity.
      - unfold payloadOk in Hp.
        destruct (data (payload ev)) eqn:Hd; [discriminate|].
        exists st. unfold try_catch, bind.
        rewrite handleTransactionEvent_missing_data by exact Hd.
        split; reflexivity. }
    destruct Hstep as [st2 [Estep Wstep]].
    destruct (IH st2 Hndr) as [Rrest Grest].
    assert (Eall : WebhookService.replayEvents (ev :: rest) st
                   = WebhookService.replayEvents rest st2).
    { simpl WebhookService.replayEvents. unfold bind at 1. rewrite Estep.
      reflexivity. }
    unfold res_of, st_after in *. rewrite Eall.
    split; [exact Rrest|]. rewrite Grest, Wstep. simpl.
    destruct (Nat.eqb (ev_id ev) k) eqn:Ek.
    + apply Nat.eqb_eq in Ek. subst k.
      rewrite find_none_forall.
      2:{ intros x Hx. apply Nat.eqb_neq. intros Ex. apply Hnin.
          rewrite <- Ex. apply in_map. exact Hx. }
      destruct (payloadOk (payload ev)); [|reflexivity].
      rewrite map_get_markedEvents, Nat.eqb_refl. reflexivity.
    + destruct (payloadOk (payload ev));
        [rewrite !map_get_markedEvents, Ek|]; reflexivity.
Qed.

Lemma NoDup_map_filter {A B} (g : A -> B) (f : A -> bool) (l : list A) :
  NoDup (map g l) -> NoDup (map g (filter f l)).
Proof.
  induction l as [|a r IH]; simpl; auto.
  intros Hnd. inversion Hnd as [|? ? Hn Hr]; subst.
  destruct (f a); simpl; auto.
  constructor; auto. intros Hin. apply Hn.
  apply in_map_iff in Hin as [x [Ex Hx]]. apply filter_In in Hx as [Hx _].
  rewrite <- Ex. apply in_map. exact Hx.
Qed.

Lemma ev_ids_keys (m : JsMap WebhookEvent) :
  (forall kv, In kv m -> fst kv = ev_id (snd kv)) ->
  map ev_id (map_values m) = keys m.
Proof.
  induction m as [|[k e] r IH]; simpl; auto.
  intros H. f_equal.
  - symmetry. apply (H (k, e)). left. reflexivity.
  - apply IH. intros kv Hkv. apply H. right. exact Hkv.
Qed.

Lemma find_unprocessed (m : JsMap WebhookEvent) (k : Uuid)
    (ev : WebhookEvent) :
  (forall kv, In kv m -> fst kv = ev_id (snd kv)) ->
  map_get k m = Some ev -> processed ev = false ->
  find (fun e => Nat.eqb (ev_id e) k)
    (filter (fun e => negb (processed e)) (map_values m)) = Some ev.
Proof.
  induction m as [|[k0 e0] r IH]; simpl; [discriminate|].
  intros Hid Hg Hp.
  assert (Hk0 : k0 = ev_id e0) by (apply (Hid (k0, e0)); left; reflexivity).
  destruct (Nat.eqb k k0) eqn:Ek.
  - injection Hg as <-. apply Nat.eqb_eq in Ek. subst.
    rewrite Hp. simpl. rewrite Nat.eqb_refl. reflexivity.
  - assert (Hrest : find (fun e => Nat.eqb (ev_id e) k)
                      (filter (fun e => negb (processed e)) (map_values r))
                    = Some ev)
      by (apply IH; auto; intros kv Hkv; apply Hid; right; exact Hkv).
    destruct (negb (processed e0)); simpl; [|exact Hrest].
    rewrite <- Hk0, Nat.eqb_sym, Ek. exact Hrest.
Qed.

(** C5: in a well-formed store, the startup replay always returns, and
    every event stored unprocessed ends with its [processed] flag true
    exactly when the handler completes on its payload (which does not
    depend on the store the handler runs on), whatever happens to the
    other events. *)
Theorem processUnprocessedEvents_flags (st : Store) (k : Uuid)
    (ev : WebhookEvent) :
  wf_store st = true ->
  map_get k (webhookEvents st) = Some ev -> processed ev = false ->
  res_of WebhookService.processUnprocessedEvents st = Ret tt
  /\ forall st' : Store,
       exists ev',
         map_get k (webhookEvents
                      (st_after WebhookService.processUnprocessedEvents st))
         = Some ev'
         /\ payload ev' = payload ev
         /\ (processed ev' = true <-> handler_ok st' (payload ev) = true).
Proof.
  intros Hwf Hg Hp.
  destruct (wf_store_props st Hwf) as (_ & _ & Hnde & _ & _ & Hide & _).
  set (evs := filter (fun e => negb (processed e))
                (map_values (webhookEvents st))).
  assert (Heq : WebhookService.processUnprocessedEvents st
                = WebhookService.replayEvents evs st) by reflexivity.
  assert (Hnd : NoDup (map ev_id evs)).
  { apply NoDup_map_filter. rewrite ev_ids_keys; auto. }
  destruct (replayEvents_get evs st k Hnd) as [R G].
  unfold res_of, st_after in *. rewrite Heq.
  split; [exact R|]. intros st'.
  rewrite G. unfold evs.
  rewrite (find_unprocessed (webhookEvents st) k ev Hide Hg Hp), Hg.
  rewrite handler_ok_payloadOk.
  destruct (payloadOk (payload ev)); simpl.
  - eexists; split; [reflexivity|]. simpl. split; [reflexivity|tauto].
  - eexists; split; [reflexivity|]. rewrite Hp. split; [reflexivity|tauto].
Qed.

Lemma processUnprocessedEvents_flags_witness :
  res_of WebhookService.processUnprocessedEvents replayStore = Ret tt
  /\ forall st' : Store,
       exists ev',
         map_get 1%nat (webhookEvents
                   (st_after WebhookService.processUnprocessedEvents
                      replayStore))
         = Some ev'
         /\ payload ev' = malformedPayload
         /\ (processed ev' = true <-> handler_ok st' malformedPayload = true).
Proof.
  apply (processUnprocessedEvents_flags replayStore 1%nat
           (mkWebhookEvent 1%nat "transaction.updated" "" malformedPayload
              false 0));
    reflexivity.
Defined.

(** On [replayStore], the malformed event stays unprocessed and the
    [paid] event after it is still handled and marked processed. *)
Example replayStore_flags :
  option_map processed
    (map_get 1%nat (webhookEvents (st_after
       WebhookService.processUnprocessedEvents replayStore))) = Some false
  /\ option_map processed
    (map_get 2%nat (webhookEvents (st_after
       WebhookService.processUnprocessedEvents replayStore))) = Some true
  /\ length (subscriptions (st_after
       WebhookService.processUnprocessedEvents replayStore)) = 1%nat.
Proof. repeat split; vm_compute; reflexivity. Qed.

(** ** C6: length of the subscription period *)

Module Calendar.
Import JsDate.

Lemma div_step (y k : Z) :
  0 < k -> y / k - (y - 1) / k = if y mod k =? 0 then 1 else 0.
Proof.
  intros Hk.
  pose proof (Z.div_mod y k ltac:(lia)) as Hdm.
  pose proof (Z.mod_pos_bound y k Hk) as Hb.
  destruct (Z.eqb_spec (y mod k) 0) as [H0|H0].
  - assert (E : (y - 1) / k = y / k - 1)
      by (symmetry; apply Z.div_unique with (k - 1); lia).
    rewrite E. lia.
  - assert (E : (y - 1) / k = y / k)
      by (symmetry; apply Z.div_unique with (y mod k - 1); lia).
    rewrite E. lia.
Qed.

Lemma mod_zero_divides (y a b : Z) :
  0 < a -> 0 < b -> (a | b) -> y mod b = 0 -> y mod a = 0.
Proof.
  intros Ha Hb0 Hab Hb.
  apply Z.mod_divide in Hb; [|lia].
  apply Z.mod_divide; [lia|]. eapply Z.divide_trans; eauto.
Qed.

(** Leap days counted up to year [y] minus those up to [y - 1]. *)
Lemma leap_step (y : Z) :
  (y / 4 - y / 100 + y / 400)
  - ((y - 1) / 4 - (y - 1) / 100 + (y - 1) / 400)
  = if isLeap y then 1 else 0.
Proof.
  pose proof (div_step y 4 ltac:(lia)) as H4.
  pose proof (div_step y 100 ltac:(lia)) as H100.
  pose proof (div_step y 400 ltac:(lia)) as H400.
  assert (I1 : y mod 400 = 0 -> y mod 100 = 0)
    by (apply mod_zero_divides; [lia|lia|exists 4; lia]).
  assert (I2 : y mod 100 = 0 -> y mod 4 = 0)
    by (apply mod_zero_divides; [lia|lia|exists 25; lia]).
  unfold isLeap.
  destruct (Z.eqb_spec (y mod 4) 0), (Z.eqb_spec (y mod 100) 0),
    (Z.eqb_spec (y mod 400) 0); simpl; lia.
Qed.

(** Evaluates the closed calendar constants of a goal about a fixed month
    and leaves the terms in the year alone. *)
Ltac eval_closed t := let v := eval vm_compute in t in change t with v.

Ltac reduce_month_constants :=
  repeat match goal with
         | |- context [?a / 12] => progress eval_closed (a / 12)
         | |- context [?a mod 12] => progress eval_closed (a mod 12)
         | |- context [?a <? 2] => progress eval_closed (a <? 2)
         | |- context [?a / 5] => progress eval_closed (a / 5)
         | |- context [?a =? 1] => progress eval_closed (a =? 1)
         | |- context [?a =? 3] => progress eval_closed (a =? 3)
         | |- context [?a =? 5] => progress eval_closed (a =? 5)
         | |- context [?a =? 8] => progress eval_closed (a =? 8)
         | |- context [?a =? 10] => progress eval_closed (a =? 10)
         end;
  cbv beta iota zeta delta [orb];
  rewrite ?Z.add_0_r, ?Z.add_simpl_r.

Lemma MakeDay_next_month (y m d : Z) :
  0 <= m <= 11 -> MakeDay y (m + 1) d - MakeDay y m d = daysInMonth y m.
Proof.
  intros Hm.
  pose proof (leap_step y) as HL.
  assert (Hc : m = 0 \/ m = 1 \/ m = 2 \/ m = 3 \/ m = 4 \/ m = 5 \/ m = 6
               \/ m = 7 \/ m = 8 \/ m = 9 \/ m = 10 \/ m = 11) by lia.
  unfold MakeDay, days_from_civil, daysInMonth.
  repeat destruct Hc as [-> | Hc]; [..|subst m];
    reduce_month_constants; destruct (isLeap y); lia.
Qed.

(** One year later: 366 days when the February crossed has a 29th. *)
Lemma MakeDay_next_year (y m d : Z) :
  0 <= m <= 11 ->
  MakeDay (y + 1) m d - MakeDay y m d
  = if m <? 2 then (if isLeap y then 366 else 365)
    else (if isLeap (y + 1) then 366 else 365).
Proof.
  intros Hm.
  pose proof (leap_step y) as HL.
  pose proof (leap_step (y + 1)) as HL1. rewrite Z.add_simpl_r in HL1.
  assert (Hc : m = 0 \/ m = 1 \/ m = 2 \/ m = 3 \/ m = 4 \/ m = 5 \/ m = 6
               \/ m = 7 \/ m = 8 \/ m = 9 \/ m = 10 \/ m = 11) by lia.
  unfold MakeDay, days_from_civil.
  repeat destruct Hc as [-> | Hc]; [..|subst m];
    reduce_month_constants;
    first [destruct (isLeap y); lia | destruct (isLeap (y + 1)); lia].
Qed.

(** [setMonth(getMonth() + 1)] moves a reading forward by the length of its
    month; [setFullYear(getFullYear() + 1)] by 365 or 366 days. *)
Lemma setMonth_next_span (c : DateF) :
  0 <= month c <= 11 ->
  setMonth c (month c + 1) - timeValue c
  = daysInMonth (year c) (month c) * msPerDay.
Proof.
  intros Hm. unfold setMonth, timeValue.
  pose proof (MakeDay_next_month (year c) (month c) (date c) Hm).
  unfold msPerDay in *. lia.
Qed.

Lemma setFullYear_next_span (c : DateF) :
  0 <= month c <= 11 ->
  setFullYear c (year c + 1) - timeValue c = 365 * msPerDay
  \/ setFullYear c (year c + 1) - timeValue c = 366 * msPerDay.
Proof.
  intros Hm. unfold setFullYear, timeValue.
  pose proof (MakeDay_next_year (year c) (month c) (date c) Hm) as H.
  unfold msPerDay.
  destruct (month c <? 2), (isLeap (year c)), (isLeap (year c + 1)); lia.
Qed.

Lemma daysInMonth_range (y m : Z) : 28 <= daysInMonth y m <= 31.
Proof.
  unfold daysInMonth.
  destruct (m =? 1), (isLeap y),
    ((m =? 3) || (m =? 5) || (m =? 8) || (m =? 10)); lia.
Qed.

End Calendar.

Lemma planEndDate_span (p : string) (c : JsDate.DateF) :
  0 <= JsDate.month c <= 11 ->
  (String.eqb p "annual" = false ->
   WebhookService.planEndDate p c - JsDate.timeValue c
   = JsDate.daysInMonth (JsDate.year c) (JsDate.month c) * JsDate.msPerDay)
  /\ (p = "annual" ->
      WebhookService.planEndDate p c - JsDate.timeValue c
      = 365 * JsDate.msPerDay
      \/ WebhookService.planEndDate p c - JsDate.timeValue c
         = 366 * JsDate.msPerDay).
Proof.
  intros Hm. split.
  - intros Ha. unfold WebhookService.planEndDate. rewrite Ha.
    destruct (String.eqb p "premium" || String.eqb p "basic");
      apply Calendar.setMonth_next_span; exact Hm.
  - intros ->. apply Calendar.setFullYear_next_span. exact Hm.
Qed.

(** The subscription [createSubscription] stores: its [startDate] is the
    first clock reading [c0], its [endDate] the plan period added to the
    second reading [c1], so [endDate - startDate] is the period plus the
    time elapsed between the two readings; it is positive when the clock
    does not go backwards. *)
Lemma createSubscription_period (t : Transaction) (st : Store) :
  let c0 := clock st (ticks st) in
  let c1 := clock st (S (ticks st)) in
  0 <= JsDate.month c1 <= 11 ->
  exists sub,
    map_get (nextUuid st)
      (subscriptions (st_after (WebhookService.createSubscription t) st))
    = Some sub
    /\ sub_transactionId sub = tx_id t
    /\ endDate sub - startDate sub
       = (WebhookService.planEndDate (plan t) c1 - JsDate.timeValue c1)
         + (JsDate.timeValue c1 - JsDate.timeValue c0)
    /\ (JsDate.timeValue c0 <= JsDate.timeValue c1 ->
        startDate sub < endDate sub).
Proof.
  intros c0 c1 Hm. subst c0 c1.
  unfold st_after. rewrite createSubscription_eq. simpl.
  eexists. split; [apply map_get_set_eq|].
  split; [reflexivity|]. simpl. split; [lia|].
  intros Hle.
  destruct (planEndDate_span (plan t) _ Hm) as [Hmo Hyr].
  pose proof (Calendar.daysInMonth_range
                (JsDate.year (clock st (S (ticks st))))
                (JsDate.month (clock st (S (ticks st))))).
  destruct (String.eqb (plan t) "annual") eqn:Ea.
  - apply String.eqb_eq in Ea. destruct (Hyr Ea) as [E|E];
      unfold JsDate.msPerDay in *; lia.
  - specialize (Hmo eq_refl). unfold JsDate.msPerDay in *. nia.
Qed.

(** C6 (failing input): transaction [abc] of user [u1] on plan [premium]
    is paid while the clock reads 2025-01-15 00:00:00.000 and ticks one
    millisecond per reading; the subscription stored spans 31 days and one
    millisecond, not one month (31 days in January), because [startDate]
    and [endDate] come from two separate [new Date()] readings. *)
Lemma C6_subscription_period_includes_clock_tick :
  map (fun kv => endDate (snd kv) - startDate (snd kv))
    (subscriptions (st_after (WebhookService.handleTransactionEvent
                                paidPayload) (sampleStore "premium")))
  = [31 * JsDate.msPerDay + 1]
  /\ JsDate.daysInMonth 2025 0 = 31.
Proof. split; vm_compute; reflexivity. Qed.

(** ** C7: the checkout route *)

(** An e-mail check standing for zod's: the address contains [@]. *)
Definition containsAt (s : string) : bool :=
  existsb (fun a => Ascii.eqb a "@"%char) (list_ascii_of_string s).

Definition sampleForm : Routes.CheckoutForm :=
  Routes.mkCheckoutForm "Ana" "ana@example.com" "12345678901" "11999999999"
    "premium" 2990 "Acesso VIP - Mensal".

(** A successful gateway reply whose PIX code is empty. *)
Definition emptyQrReply : BullsPay.CreateResponse :=
  BullsPay.mkCreateResponse true true "abc" "".

(** C7 (counterexample): a valid form, and a gateway call that succeeds
    with an empty PIX code; the route answers success and stores the
    transaction with the empty payment code. *)
Lemma C7_empty_payment_code_stored :
  Routes.checkoutFormValid containsAt sampleForm = true
  /\ res_of (Routes.createRoute containsAt sampleForm emptyQrReply)
       (emptyStore tickingClock) = Ret (Routes.mkHttpResponse 200 true)
  /\ map (fun kv => paymentData (snd kv))
       (transactions (st_after (Routes.createRoute containsAt sampleForm
                                  emptyQrReply) (emptyStore tickingClock)))
     = [Some (mkPaymentData None (Some "") None)].
Proof. repeat split; vm_compute; reflexivity. Qed.

(** C7 (amended): for a valid form and a gateway call that succeeds, the
    route answers success and stores one transaction in [pending] status,
    with no user, whose amount is the submitted price and whose gateway id
    and PIX code are the ones the gateway returned, unchecked. *)
Theorem createRoute_persists_pending (isEmail : string -> bool)
    (f : Routes.CheckoutForm) (gw : BullsPay.CreateResponse) (st : Store) :
  Routes.checkoutFormValid isEmail f = true ->
  BullsPay.cr_ok gw = true -> BullsPay.cr_success gw = true ->
  res_of (Routes.createRoute isEmail f gw) st
    = Ret (Routes.mkHttpResponse 200 true)
  /\ exists k t,
       transactions (st_after (Routes.createRoute isEmail f gw) st)
         = map_set k t (transactions st)
       /\ tx_status t = "pending"
       /\ amount t = Routes.f_price f
       /\ unicId t = BullsPay.cr_payment_id gw
       /\ paymentData t
          = Some (mkPaymentData None (Some (BullsPay.cr_qrcode gw)) None)
       /\ userId t = None
       /\ plan t = Routes.f_plan f.
Proof.
  intros Hv Hok Hs.
  unfold res_of, st_after, Routes.createRoute, Routes.parseCheckoutForm,
    BullsPay.createTransaction.
  rewrite Hv, Hok, Hs. simpl.
  split; [reflexivity|].
  do 2 eexists. repeat split; reflexivity.
Qed.

Lemma createRoute_persists_pending_witness :
  res_of (Routes.createRoute containsAt sampleForm emptyQrReply)
    (emptyStore tickingClock) = Ret (Routes.mkHttpResponse 200 true)
  /\ exists k t,
       transactions (st_after (Routes.createRoute containsAt sampleForm
                                 emptyQrReply) (emptyStore tickingClock))
         = map_set k t (transactions (emptyStore tickingClock))
       /\ tx_status t = "pending"
       /\ amount t = Routes.f_price sampleForm
       /\ unicId t = BullsPay.cr_payment_id emptyQrReply
       /\ paymentData t
          = Some (mkPaymentData None (Some (BullsPay.cr_qrcode emptyQrReply))
                    None)
       /\ userId t = None
       /\ plan t = Routes.f_plan sampleForm.
Proof.
  apply (createRoute_persists_pending containsAt sampleForm emptyQrReply
           (emptyStore tickingClock)); vm_compute; reflexivity.
Defined.

(** ** C8: the active subscription of a user *)

(** C8: [getUserActiveSubscription] returns only a subscription of that
    user whose status is [active] and whose end lies strictly after the
    current clock reading. *)
Theorem getUserActiveSubscription_active_future (uid : string) (st : Store)
    (s : Subscription) :
  res_of (MemStorage.getUserActiveSubscription uid) st = Ret (Some s) ->
  sub_status s = "active"
  /\ JsDate.timeValue (clock st (ticks st)) < endDate s
  /\ sub_userId s = Some uid.
Proof.
  unfold res_of, MemStorage.getUserActiveSubscription, bind, newDate,
    get_store, ret. simpl.
  intros H. injection H as H.
  apply find_some_In in H as [_ Hc].
  apply andb_prop in Hc as [Hc Ht]. apply andb_prop in Hc as [Hu Hs].
  apply String.eqb_eq in Hs. apply Z.ltb_lt in Ht.
  split; [exact Hs|]. split; [exact Ht|].
  destruct (sub_userId s) as [u|]; [|discriminate].
  apply String.eqb_eq in Hu. subst. reflexivity.
Qed.

(** User [u1] has an expired subscription still marked [active] (ended
    2024-12-15) and a current one (ends 2025-02-15); the clock reads
    2025-01-15. *)
Definition subscriptionsStore : Store :=
  mkStore [(0%nat, sampleTx "premium")]
    [(1%nat, mkSubscription 1%nat (Some "u1") 0%nat "premium" "active"
               1731628800000 1734220800000 1731628800000);
     (2%nat, mkSubscription 2%nat (Some "u1") 0%nat "premium" "active"
               1736899200000 1739577600000 1736899200000)]
    [] 3%nat tickingClock 0%nat.

Lemma getUserActiveSubscription_active_future_witness :
  sub_status (mkSubscription 2%nat (Some "u1") 0%nat "premium" "active"
                1736899200000 1739577600000 1736899200000) = "active"
  /\ JsDate.timeValue (clock subscriptionsStore (ticks subscriptionsStore))
     < endDate (mkSubscription 2%nat (Some "u1") 0%nat "premium" "active"
                  1736899200000 1739577600000 1736899200000)
  /\ sub_userId (mkSubscription 2%nat (Some "u1") 0%nat "premium" "active"
                   1736899200000 1739577600000 1736899200000) = Some "u1".
Proof.
  apply (getUserActiveSubscription_active_future "u1" subscriptionsStore).
  vm_compute. reflexivity.
Defined.

Example subscriptionsStore_skips_expired :
  option_map sub_id
    (match res_of (MemStorage.getUserActiveSubscription "u1")
             subscriptionsStore with
     | Ret o => o
     | Throw _ => None
     end) = Some 2%nat.
Proof. vm_compute. reflexivity. Qed.

(** ** C9: transactions created by the checkout route have no user *)

(** Stores the server reaches from an empty one through its routes and
    the startup replay. *)
Inductive reachable (isEmail : string -> bool) : Store -> Prop :=
| reach_init c : reachable isEmail (emptyStore c)
| reach_create st f gw :
    reachable isEmail st ->
    reachable isEmail (st_after (Routes.createRoute isEmail f gw) st)
| reach_status st u gw :
    reachable isEmail st ->
    reachable isEmail (st_after (Routes.statusRoute u gw) st)
| reach_webhook st p :
    reachable isEmail st ->
    reachable isEmail (st_after (Routes.webhookRoute p) st)
| reach_refund st u gw :
    reachable isEmail st ->
    reachable isEmail (st_after (Routes.refundRoute u gw) st)
| reach_subscriptions st uid :
    reachable isEmail st ->
    reachable isEmail
      (st_after (MemStorage.getUserActiveSubscription uid) st)
| reach_replay st :
    reachable isEmail st ->
    reachable isEmail (st_after Routes.startupReplay st).

(** No stored transaction has a user, and no subscription exists. *)
Definition noUserInv (s : Store) : Prop :=
  (forall kv, In kv (transactions s) -> userId (snd kv) = None)
  /\ subscriptions s = [].

Definition preserves {A} (m : M A) : Prop :=
  forall s, noUserInv s -> noUserInv (snd (m s)).

Create HintDb noUser.

Lemma preserves_ret {A} (a : A) : preserves (ret a).
Proof. intros s H. exact H. Qed.

Lemma preserves_throw {A} (e : string) : preserves (@throw A e).
Proof. intros s H. exact H. Qed.

Lemma preserves_log (e : string) : preserves (log e).
Proof. intros s H. exact H. Qed.

Lemma preserves_get_store : preserves get_store.
Proof. intros s H. exact H. Qed.

Lemma preserves_newDate : preserves newDate.
Proof. intros [] H. exact H. Qed.

Lemma preserves_randomUUID : preserves randomUUID.
Proof. intros [] H. exact H. Qed.

Lemma preserves_set_webhookEvents m : preserves (set_webhookEvents m).
Proof. intros [] H. exact H. Qed.

Lemma preserves_bind {A B} (m : M A) (f : A -> M B) :
  preserves m -> (forall a, preserves (f a)) -> preserves (bind m f).
Proof.
  intros Hm Hf s H. unfold bind.
  specialize (Hm s H). destruct (m s) as [[a|e] s']; simpl in *; auto.
  apply Hf. exact Hm.
Qed.

Lemma preserves_try_catch {A} (body : M A) (h : string -> M A) :
  preserves body -> (forall e, preserves (h e)) -> preserves (try_catch body h).
Proof.
  intros Hb Hh s H. unfold try_catch.
  specialize (Hb s H). destruct (body s) as [[a|e] s']; simpl in *; auto.
  apply Hh. exact Hb.
Qed.

#[local] Hint Resolve preserves_ret preserves_throw preserves_log
  preserves_get_store preserves_newDate preserves_randomUUID
  preserves_set_webhookEvents preserves_bind preserves_try_catch : noUser.

(** Splits a composite action into the actions it runs. *)
Ltac preserve_steps :=
  repeat first
    [ apply preserves_bind; [|intro]
    | apply preserves_try_catch; [|intro]
    | match goal with
      | |- preserves (match ?x with _ => _ end) => destruct x
      | |- preserves (if ?b then _ else _) => destruct b
      end
    | solve [auto with noUser] ].

Lemma In_values_In {V} (v : V) (m : JsMap V) :
  In v (map_values m) -> exists k, In (k, v) m.
Proof.
  unfold map_values. intros H. apply in_map_iff in H as [[k v'] [E H]].
  simpl in E. subst. eauto.
Qed.

Lemma preserves_updateTransactionStatus u status pd :
  preserves (MemStorage.updateTransactionStatus u status pd).
Proof.
  intros st [Ht Hs].
  destruct (findByUnicId u (transactions st)) as [t|] eqn:Ef.
  - rewrite updateTransactionStatus_found with (t := t) by exact Ef.
    split; [|exact Hs]. simpl. intros kv Hin.
    apply In_map_set in Hin as [->|Hin]; [|apply Ht; exact Hin].
    simpl. apply find_some_In in Ef as [Ein _].
    apply In_values_In in Ein as [k Ek]. exact (Ht _ Ek).
  - rewrite updateTransactionStatus_missing by exact Ef. split; assumption.
Qed.

Lemma preserves_handleTransactionEvent p :
  preserves (WebhookService.handleTransactionEvent p).
Proof.
  intros st H. destruct (data p) as [d|] eqn:Hd.
  - destruct (findByUnicId (unic_id d) (transactions st)) as [t|] eqn:Ef.
    + rewrite (handleTransactionEvent_found p d st t Hd Ef).
      assert (Hu : userId t = None).
      { destruct H as [Ht _]. apply find_some_In in Ef as [Ein _].
        apply In_values_In in Ein as [k Ek]. exact (Ht _ Ek). }
      rewrite Hu, andb_false_r. simpl.
      pose proof (preserves_updateTransactionStatus (unic_id d) (pd_status d)
                    None st H) as P.
      rewrite updateTransactionStatus_found with (t := t) in P by exact Ef.
      exact P.
    + rewrite (handleTransactionEvent_not_found p d st Hd Ef). exact H.
  - rewrite handleTransactionEvent_missing_data by exact Hd. exact H.
Qed.

Lemma preserves_createTransaction (i : MemStorage.InsertTransaction) :
  MemStorage.it_userId i = None -> preserves (MemStorage.createTransaction i).
Proof.
  intros Hi [] [Ht Hs]. simpl in *. split; [|exact Hs].
  intros kv Hin. apply In_map_set in Hin as [->|Hin]; [exact Hi|].
  apply Ht. exact Hin.
Qed.

Lemma preserves_createWebhookEvent i :
  preserves (MemStorage.createWebhookEvent i).
Proof. intros [] H. exact H. Qed.

Lemma preserves_markWebhookEventProcessed id :
  preserves (MemStorage.markWebhookEventProcessed id).
Proof.
  intros [] H. unfold MemStorage.markWebhookEventProcessed, bind, get_store.
  simpl. destruct (map_get id webhookEvents0); exact H.
Qed.

Lemma preserves_getUnprocessedWebhookEvents :
  preserves MemStorage.getUnprocessedWebhookEvents.
Proof. intros s H. exact H. Qed.

Lemma preserves_getUserActiveSubscription uid :
  preserves (MemStorage.getUserActiveSubscription uid).
Proof. intros [] H. exact H. Qed.

Lemma preserves_bullsPay_checkTransactionStatus gw :
  preserves (BullsPay.checkTransactionStatus gw).
Proof.
  intros s H. rewrite BullsPay_checkTransactionStatus_store. exact H.
Qed.

Lemma preserves_bullsPay_createTransaction gw :
  preserves (BullsPay.createTransaction gw).
Proof.
  intros s H. unfold BullsPay.createTransaction.
  destruct (negb (BullsPay.cr_ok gw)); [exact H|].
  destruct (negb (BullsPay.cr_success gw)); exact H.
Qed.

Lemma preserves_bullsPay_refundTransaction gw :
  preserves (BullsPay.refundTransaction gw).
Proof.
  intros s H. unfold BullsPay.refundTransaction.
  destruct (negb (BullsPay.rr_ok gw)); exact H.
Qed.

Lemma preserves_parseCheckoutForm isEmail f :
  preserves (Routes.parseCheckoutForm isEmail f).
Proof.
  intros s H. unfold Routes.parseCheckoutForm.
  destruct (Routes.checkoutFormValid isEmail f); exact H.
Qed.

#[local] Hint Resolve preserves_updateTransactionStatus
  preserves_handleTransactionEvent preserves_createWebhookEvent
  preserves_markWebhookEventProcessed preserves_getUnprocessedWebhookEvents
  preserves_getUserActiveSubscription preserves_bullsPay_checkTransactionStatus
  preserves_bullsPay_createTransaction preserves_bullsPay_refundTransaction
  preserves_parseCheckoutForm : noUser.

Lemma preserves_replayEvents evs :
  preserves (WebhookService.replayEvents evs).
Proof.
  induction evs as [|ev rest IH]; simpl; [apply preserves_ret|].
  apply preserves_bind; [|intros _; exact IH].
  apply preserves_try_catch; [|intros; apply preserves_log].
  apply preserves_bind; auto with noUser.
Qed.

Lemma preserves_processWebhookEvent p :
  preserves (WebhookService.processWebhookEvent p).
Proof.
  unfold WebhookService.processWebhookEvent.
  apply preserves_try_catch.
  - destruct (data p); auto with noUser.
  - intros e. apply preserves_bind; auto with noUser.
Qed.

Lemma preserves_routes isEmail :
  (forall f gw, preserves (Routes.createRoute isEmail f gw))
  /\ (forall u gw, preserves (Routes.statusRoute u gw))
  /\ (forall p, preserves (Routes.webhookRoute p))
  /\ (forall u gw, preserves (Routes.refundRoute u gw))
  /\ preserves Routes.startupReplay.
Proof.
  split; [|split; [|split; [|split]]]; [intros f gw|intros u gw|intros p
    |intros u gw|].
  - unfold Routes.createRoute. apply preserves_try_catch;
      [|intros; apply preserves_bind; auto with noUser].
    apply preserves_bind; [auto with noUser|intros v].
    apply preserves_bind; [auto with noUser|intros now].
    apply preserves_bind; [auto with noUser|intros u].
    apply preserves_bind; [auto with noUser|intros r].
    apply preserves_bind; [|intros; apply preserves_ret].
    apply preserves_createTransaction. reflexivity.
  - unfold Routes.statusRoute. apply preserves_try_catch;
      [|intros; apply preserves_bind; auto with noUser].
    apply preserves_bind; [auto with noUser|intros s].
    apply preserves_bind; auto with noUser.
  - unfold Routes.webhookRoute. apply preserves_try_catch;
      [|intros; apply preserves_bind; auto with noUser].
    apply preserves_bind; [apply preserves_processWebhookEvent|].
    intros; apply preserves_ret.
  - unfold Routes.refundRoute. apply preserves_try_catch;
      [|intros; apply preserves_bind; auto with noUser].
    apply preserves_bind; [auto with noUser|intros ok].
    apply preserves_bind; [|intros; apply preserves_ret].
    destruct ok; [|apply preserves_ret].
    apply preserves_bind; auto with noUser.
  - unfold Routes.startupReplay. apply preserves_try_catch;
      [|intros; apply preserves_log].
    unfold WebhookService.processUnprocessedEvents.
    apply preserves_bind; [auto with noUser|intros evs].
    apply preserves_replayEvents.
Qed.

Lemma reachable_noUserInv isEmail st :
  reachable isEmail st -> noUserInv st.
Proof.
  destruct (preserves_routes isEmail) as (Pc & Ps & Pw & Pr & Pst).
  induction 1; unfold st_after.
  - split; [intros kv []|reflexivity].
  - apply Pc; assumption.
  - apply Ps; assumption.
  - apply Pw; assumption.
  - apply Pr; assumption.
  - apply preserves_getUserActiveSubscription; assumption.
  - apply Pst; assumption.
Qed.

(** A successful gateway reply with PIX code "pix". *)
Definition pixReply : BullsPay.CreateResponse :=
  BullsPay.mkCreateResponse true true "abc" "00020126pix".

(** The store after one checkout through the public endpoint followed by a
    webhook reporting that transaction as paid. *)
Definition checkoutThenPaid : Store :=
  st_after (Routes.webhookRoute paidPayload)
    (st_after (Routes.createRoute containsAt sampleForm pixReply)
       (emptyStore tickingClock)).

(** C9: in every state reachable from an empty store through the HTTP
    routes and the startup replay, each stored transaction has no user
    ([userId = null]) and no subscription exists; consequently the webhook
    handler, whatever the payload (in particular a 'paid' update for a
    stored transaction), leaves the subscriptions unchanged. *)
Theorem checkout_transactions_have_no_user isEmail st :
  reachable isEmail st ->
  (forall kv, In kv (transactions st) -> userId (snd kv) = None)
  /\ subscriptions st = []
  /\ forall p,
       subscriptions (st_after (WebhookService.handleTransactionEvent p) st)
       = subscriptions st.
Proof.
  intros R. pose proof (reachable_noUserInv isEmail st R) as [Ht Hs].
  split; [exact Ht|split; [exact Hs|]].
  intros p. destruct (preserves_handleTransactionEvent p st (conj Ht Hs))
    as [_ Hs']. unfold st_after. rewrite Hs', Hs. reflexivity.
Qed.

Lemma checkout_transactions_have_no_user_witness :
  reachable containsAt checkoutThenPaid
  /\ storedStatus "abc" checkoutThenPaid = Some "paid"
  /\ ((forall kv, In kv (transactions checkoutThenPaid)
                  -> userId (snd kv) = None)
      /\ subscriptions checkoutThenPaid = []
      /\ forall p,
           subscriptions (st_after (WebhookService.handleTransactionEvent p)
                            checkoutThenPaid)
           = subscriptions checkoutThenPaid).
Proof.
  assert (R : reachable containsAt checkoutThenPaid).
  { apply reach_webhook, reach_create, reach_init. }
  split; [exact R|split; [vm_compute; reflexivity|]].
  apply (checkout_transactions_have_no_user containsAt checkoutThenPaid R).
Defined.

(** ** C10 *)

Lemma map_get_In_keys {V} (k : Uuid) (v : V) (m : JsMap V) :
  map_get k m = Some v -> In k (keys m).
Proof.
  induction m as [|[k' v'] r IH]; simpl; [discriminate|].
  destruct (Nat.eqb k k') eqn:E; intros H.
  - apply Nat.eqb_eq in E. auto.
  - auto.
Qed.

(** The event [processWebhookEvent] stores for a payload with [data]. *)
Definition receivedEvent (p : Payload) (d : PayloadData) (st : Store)
    : WebhookEvent :=
  mkWebhookEvent (nextUuid st) (event_type p) (unic_id d) p false
    (JsDate.timeValue (clock st (ticks st))).

Lemma processWebhookEvent_eq (p : Payload) (d : PayloadData) (st : Store) :
  data p = Some d ->
  exists st1,
    WebhookService.processWebhookEvent p st = (Ret tt, st1)
    /\ webhookEvents st1
       = map_set (nextUuid st) (receivedEvent p d st) (webhookEvents st).
Proof.
  intros Hd.
  set (s1 := mkStore (transactions st) (subscriptions st)
               (map_set (nextUuid st) (receivedEvent p d st)
                  (webhookEvents st))
               (S (nextUuid st)) (clock st) (S (ticks st))).
  assert (Ec : MemStorage.createWebhookEvent
                 (MemStorage.mkInsertWebhookEvent (event_type p) (unic_id d) p
                    false) st = (Ret (receivedEvent p d st), s1))
    by (destruct st; reflexivity).
  destruct (handleTransactionEvent_ok p s1) as [st1 [Eh Ew]].
  { unfold payloadOk. rewrite Hd. reflexivity. }
  exists st1. split; [|exact Ew].
  unfold WebhookService.processWebhookEvent, try_catch. rewrite Hd.
  unfold bind. rewrite Ec, Eh. reflexivity.
Qed.

(** Receiving a webhook whose body has [data] completes, stores one new
    event under a fresh id with [processed = false], leaves every event
    already stored (and its flag) as it was, and the new event is still
    among those [getUnprocessedWebhookEvents] returns afterwards. *)
Lemma processWebhookEvent_leaves_unprocessed (p : Payload) (d : PayloadData)
    (st : Store) :
  wf_store st = true -> data p = Some d ->
  let st' := st_after (WebhookService.processWebhookEvent p) st in
  let ev := receivedEvent p d st in
  res_of (WebhookService.processWebhookEvent p) st = Ret tt
  /\ webhookEvents st' = map_set (nextUuid st) ev (webhookEvents st)
  /\ (forall k e, map_get k (webhookEvents st) = Some e ->
                  map_get k (webhookEvents st') = Some e)
  /\ map_get (nextUuid st) (webhookEvents st') = Some ev
  /\ payload ev = p /\ processed ev = false
  /\ exists evs, res_of MemStorage.getUnprocessedWebhookEvents st' = Ret evs
                 /\ In ev evs.
Proof.
  intros Hwf Hd st' ev.
  destruct (processWebhookEvent_eq p d st Hd) as [st1 [E Ew]].
  assert (Hst' : st' = st1) by (unfold st', st_after; rewrite E; reflexivity).
  rewrite Hst'. unfold res_of. rewrite E.
  destruct (wf_store_props st Hwf) as (_ & _ & _ & _ & _ & _ & Hlt).
  split; [reflexivity|split; [exact Ew|split; [|split; [|split; [|split]]]]].
  - intros k e Hk. rewrite Ew. rewrite map_get_set_neq; [exact Hk|].
    intros Heq. subst k. apply map_get_In_keys in Hk.
    assert (nextUuid st < nextUuid st)%nat by (apply Hlt; auto). lia.
  - rewrite Ew. apply map_get_set_eq.
  - reflexivity.
  - reflexivity.
  - eexists; split; [reflexivity|]. rewrite Ew.
    apply filter_In. split; [|reflexivity].
    unfold map_values. apply (in_map snd (map_set _ _ _) (nextUuid st, ev)).
    apply In_map_set_self.
Qed.

(** Receiving the paid webhook and then restarting: the replay handles the
    already-handled event again, and the transaction ends up with two
    subscriptions. *)
Example webhook_then_replay_two_subscriptions :
  countForTransaction 0%nat
    (subscriptions (st_after (WebhookService.processWebhookEvent paidPayload ;;;
               WebhookService.processUnprocessedEvents)
       (sampleStore "premium"))) = 2%nat.
Proof. vm_compute. reflexivity. Qed.

(** * Further properties of the store, the routes and the client masks *)

(** ** Well-formedness as a proposition, kept by every operation *)

Definition mapWF {V} (idf : V -> Uuid) (n : Uuid) (m : JsMap V) : Prop :=
  NoDup (keys m)
  /\ (forall kv, In kv m -> fst kv = idf (snd kv))
  /\ (forall k, In k (keys m) -> (k < n)%nat).

Definition WF (s : Store) : Prop :=
  mapWF tx_id (nextUuid s) (transactions s)
  /\ mapWF sub_id (nextUuid s) (subscriptions s)
  /\ mapWF ev_id (nextUuid s) (webhookEvents s).

Lemma NoDup_nodupb (l : list nat) : NoDup l -> nodupb l = true.
Proof.
  induction 1 as [|x r Hn Hnd IH]; simpl; auto.
  rewrite IH, andb_true_r. apply negb_true_iff.
  destruct (existsb (Nat.eqb x) r) eqn:E; auto.
  apply existsb_exists in E as [y [Hy Ey]]. apply Nat.eqb_eq in Ey.
  subst. contradiction.
Qed.

Lemma forallb_of_forall {A} (f : A -> bool) (l : list A) :
  (forall x, In x l -> f x = true) -> forallb f l = true.
Proof. intros H. apply forallb_forall. exact H. Qed.

Lemma wf_store_iff (s : Store) : wf_store s = true <-> WF s.
Proof.
  split.
  - intros H. destruct (wf_store_props s H)
      as (N1 & N2 & N3 & I1 & I2 & I3 & L).
    repeat split; auto; intros k Hk; apply L; auto.
  - intros ((N1 & I1 & L1) & (N2 & I2 & L2) & (N3 & I3 & L3)).
    unfold wf_store. rewrite !NoDup_nodupb by assumption.
    rewrite !forallb_of_forall; auto.
    + intros k Hk. apply Nat.ltb_lt.
      apply in_app_or in Hk as [Hk|Hk]; [auto|].
      apply in_app_or in Hk as [Hk|Hk]; auto.
    + intros kv Hkv. apply Nat.eqb_eq. auto.
    + intros kv Hkv. apply Nat.eqb_eq. auto.
    + intros kv Hkv. apply Nat.eqb_eq. auto.
Qed.

Section MapWF.

Context {V : Type}.

Lemma keys_map_set_in (k : Uuid) (v : V) (m : JsMap V) :
  In k (keys m) -> keys (map_set k v m) = keys m.
Proof.
  induction m as [|[k' v'] r IH]; simpl; [intros []|].
  destruct (Nat.eqb k k') eqn:E; simpl.
  - apply Nat.eqb_eq in E. subst. reflexivity.
  - intros [->|H]; [rewrite Nat.eqb_refl in E; discriminate|].
    rewrite IH; auto.
Qed.

Lemma NoDup_snoc (l : list Uuid) (n : Uuid) :
  NoDup l -> ~ In n l -> NoDup (l ++ [n])%list.
Proof.
  induction 1 as [|x r Hx Hnd IH]; simpl; intros Hn.
  - constructor; [intros []|constructor].
  - constructor.
    + intros Hin. apply in_app_or in Hin as [Hin|[Hin|[]]]; [tauto|].
      subst. tauto.
    + apply IH. tauto.
Qed.

Lemma mapWF_mono (idf : V -> Uuid) (n n' : Uuid) (m : JsMap V) :
  mapWF idf n m -> (n <= n')%nat -> mapWF idf n' m.
Proof.
  intros (N & I & L) Hle. repeat split; auto.
  intros k Hk. specialize (L k Hk). lia.
Qed.

Lemma mapWF_set_existing (idf : V -> Uuid) (n k : Uuid) (v : V)
    (m : JsMap V) :
  mapWF idf n m -> In k (keys m) -> idf v = k -> mapWF idf n (map_set k v m).
Proof.
  intros (N & I & L) Hk Hv. repeat split.
  - rewrite keys_map_set_in by exact Hk. exact N.
  - intros kv Hin. apply In_map_set in Hin as [->|Hin]; auto.
  - intros k' Hk'. rewrite keys_map_set_in in Hk' by exact Hk. auto.
Qed.

Lemma mapWF_set_fresh (idf : V -> Uuid) (n : Uuid) (v : V) (m : JsMap V) :
  mapWF idf n m -> idf v = n -> mapWF idf (S n) (map_set n v m).
Proof.
  intros (N & I & L) Hv.
  assert (Hn : ~ In n (keys m)) by (intros Hin; specialize (L n Hin); lia).
  repeat split.
  - rewrite keys_map_set_fresh by exact Hn. apply NoDup_snoc; auto.
  - intros kv Hin. apply In_map_set in Hin as [->|Hin]; auto.
  - intros k Hk. rewrite keys_map_set_fresh in Hk by exact Hn.
    apply in_app_or in Hk as [Hk|[<-|[]]]; [specialize (L k Hk)|]; lia.
Qed.

Lemma map_get_In (k : Uuid) (v : V) (m : JsMap V) :
  map_get k m = Some v -> In (k, v) m.
Proof.
  induction m as [|[k' v'] r IH]; simpl; [discriminate|].
  destruct (Nat.eqb k k') eqn:E; intros H.
  - injection H as <-. apply Nat.eqb_eq in E. subst. left. reflexivity.
  - right. auto.
Qed.

Lemma In_map_get (k : Uuid) (v : V) (m : JsMap V) :
  NoDup (keys m) -> In (k, v) m -> map_get k m = Some v.
Proof.
  induction m as [|[k' v'] r IH]; simpl; [intros _ []|].
  intros Hnd Hin. inversion Hnd as [|? ? Hk' Hr]; subst.
  destruct (Nat.eqb k k') eqn:E.
  - apply Nat.eqb_eq in E. subst k'. destruct Hin as [Hin|Hin].
    + injection Hin as <-. reflexivity.
    + exfalso. apply Hk'. apply (in_map fst r (k, v)). exact Hin.
  - destruct Hin as [Hin|Hin]; [injection Hin as -> _;
      rewrite Nat.eqb_refl in E; discriminate|auto].
Qed.

End MapWF.

Definition preservesWF {A} (m : M A) : Prop :=
  forall s, WF s -> WF (snd (m s)).

Create HintDb wf.

Lemma wf_ret {A} (a : A) : preservesWF (ret a).
Proof. intros s H. exact H. Qed.

Lemma wf_throw {A} (e : string) : preservesWF (@throw A e).
Proof. intros s H. exact H. Qed.

Lemma wf_log (e : string) : preservesWF (log e).
Proof. intros s H. exact H. Qed.

Lemma wf_get_store : preservesWF get_store.
Proof. intros s H. exact H. Qed.

Lemma wf_newDate : preservesWF newDate.
Proof. intros [] H. exact H. Qed.

Lemma wf_randomUUID : preservesWF randomUUID.
Proof.
  intros [] (H1 & H2 & H3). simpl in *.
  refine (conj _ (conj _ _)); cbn; (eapply mapWF_mono; [eassumption|lia]).
Qed.

Lemma wf_bind {A B} (m : M A) (f : A -> M B) :
  preservesWF m -> (forall a, preservesWF (f a)) -> preservesWF (bind m f).
Proof.
  intros Hm Hf s H. unfold bind. specialize (Hm s H).
  destruct (m s) as [[a|e] s']; simpl in *; auto. apply Hf. exact Hm.
Qed.

Lemma wf_try_catch {A} (b : M A) (h : string -> M A) :
  preservesWF b -> (forall e, preservesWF (h e)) ->
  preservesWF (try_catch b h).
Proof.
  intros Hb Hh s H. unfold try_catch. specialize (Hb s H).
  destruct (b s) as [[a|e] s']; simpl in *; auto. apply Hh. exact Hb.
Qed.

Lemma wf_createTransaction i : preservesWF (MemStorage.createTransaction i).
Proof.
  intros [] (H1 & H2 & H3). simpl in *. refine (conj _ (conj _ _)); cbn.
  - apply mapWF_set_fresh; auto.
  - eapply mapWF_mono; [eassumption|lia].
  - eapply mapWF_mono; [eassumption|lia].
Qed.

Lemma wf_createWebhookEvent i : preservesWF (MemStorage.createWebhookEvent i).
Proof.
  intros [] (H1 & H2 & H3). simpl in *. refine (conj _ (conj _ _)); cbn.
  - eapply mapWF_mono; [eassumption|lia].
  - eapply mapWF_mono; [eassumption|lia].
  - apply mapWF_set_fresh; auto.
Qed.

Lemma wf_createSubscription i :
  preservesWF (MemStorage.createSubscription i).
Proof.
  intros [] (H1 & H2 & H3). simpl in *. refine (conj _ (conj _ _)); cbn.
  - eapply mapWF_mono; [eassumption|lia].
  - apply mapWF_set_fresh; auto.
  - eapply mapWF_mono; [eassumption|lia].
Qed.

Lemma wf_updateTransactionStatus u status pd :
  preservesWF (MemStorage.updateTransactionStatus u status pd).
Proof.
  intros st H. destruct (findByUnicId u (transactions st)) as [t|] eqn:Ef.
  - rewrite updateTransactionStatus_found with (t := t) by exact Ef.
    destruct H as (H1 & H2 & H3). simpl. refine (conj _ (conj _ _)); cbn; auto.
    apply mapWF_set_existing; auto.
    apply find_some_In in Ef as [Ein _]. apply In_values_In in Ein as [k Ek].
    destruct H1 as (_ & I & _). pose proof (I _ Ek) as Ik. simpl in Ik.
    rewrite <- Ik. apply (in_map fst _ (k, t)). exact Ek.
  - rewrite updateTransactionStatus_missing by exact Ef. exact H.
Qed.

Lemma wf_markWebhookEventProcessed id :
  preservesWF (MemStorage.markWebhookEventProcessed id).
Proof.
  intros [] (H1 & H2 & H3).
  unfold MemStorage.markWebhookEventProcessed, bind, get_store. simpl.
  destruct (map_get id webhookEvents0) as [e|] eqn:G; simpl;
    [|refine (conj _ (conj _ _)); cbn; apply H1 || apply H2 || apply H3].
  refine (conj _ (conj _ _)); cbn; auto. apply mapWF_set_existing; auto.
  - apply map_get_In in G. apply (in_map fst _ (id, e)). exact G.
  - simpl. destruct H3 as (_ & I & _). symmetry.
    apply (I (id, e)). apply map_get_In. exact G.
Qed.

Lemma wf_updateSubscriptionStatus id status :
  preservesWF (MemStorage.updateSubscriptionStatus id status).
Proof.
  intros [] (H1 & H2 & H3).
  unfold MemStorage.updateSubscriptionStatus, bind, get_store. simpl.
  destruct (map_get id subscriptions0) as [sb|] eqn:G; simpl;
    [|refine (conj _ (conj _ _)); cbn; apply H1 || apply H2 || apply H3].
  refine (conj _ (conj _ _)); cbn; auto. apply mapWF_set_existing; auto.
  - apply map_get_In in G. apply (in_map fst _ (id, sb)). exact G.
  - simpl. destruct H2 as (_ & I & _). symmetry.
    apply (I (id, sb)). apply map_get_In. exact G.
Qed.

#[local] Hint Resolve wf_ret wf_throw wf_log wf_get_store wf_newDate
  wf_randomUUID wf_createTransaction wf_createWebhookEvent
  wf_createSubscription wf_updateTransactionStatus
  wf_markWebhookEventProcessed wf_updateSubscriptionStatus : wf.

Ltac wf_steps :=
  repeat first
    [ solve [auto with wf]
    | apply wf_bind; [|intro]
    | apply wf_try_catch; [|intro]
    | match goal with
      | |- preservesWF (match ?x with _ => _ end) => destruct x
      | |- preservesWF (if ?b then _ else _) => destruct b
      end ].

Lemma wf_getters :
  (forall u, preservesWF (MemStorage.getTransactionByUnicId u))
  /\ (forall uid, preservesWF (MemStorage.getUserActiveSubscription uid))
  /\ preservesWF MemStorage.getUnprocessedWebhookEvents.
Proof.
  split; [|split]; intros; unfold MemStorage.getTransactionByUnicId,
    MemStorage.getUserActiveSubscription,
    MemStorage.getUnprocessedWebhookEvents; wf_steps.
Qed.

Lemma wf_gateways :
  (forall gw, preservesWF (BullsPay.createTransaction gw))
  /\ (forall gw, preservesWF (BullsPay.checkTransactionStatus gw))
  /\ (forall gw, preservesWF (BullsPay.refundTransaction gw))
  /\ (forall isEmail f, preservesWF (Routes.parseCheckoutForm isEmail f)).
Proof.
  split; [|split; [|split]]; intros; unfold BullsPay.createTransaction,
    BullsPay.checkTransactionStatus, BullsPay.refundTransaction,
    Routes.parseCheckoutForm; wf_steps.
Qed.

Lemma wf_handleTransactionEvent p :
  preservesWF (WebhookService.handleTransactionEvent p).
Proof.
  unfold WebhookService.handleTransactionEvent,
    WebhookService.createSubscription, WebhookService.handleFailedPayment.
  wf_steps.
Qed.

Lemma wf_replayEvents evs : preservesWF (WebhookService.replayEvents evs).
Proof.
  induction evs as [|ev rest IH]; simpl; [apply wf_ret|].
  apply wf_bind; [|intros _; exact IH].
  apply wf_try_catch; [|intros; apply wf_log].
  apply wf_bind; [apply wf_handleTransactionEvent|intros; auto with wf].
Qed.

Lemma wf_processUnprocessedEvents :
  preservesWF WebhookService.processUnprocessedEvents.
Proof.
  apply wf_bind; [apply wf_getters|intros; apply wf_replayEvents].
Qed.

#[local] Hint Resolve wf_handleTransactionEvent wf_replayEvents
  wf_processUnprocessedEvents : wf.

Lemma wf_routes isEmail :
  (forall f gw, preservesWF (Routes.createRoute isEmail f gw))
  /\ (forall u gw, preservesWF (Routes.statusRoute u gw))
  /\ (forall u, preservesWF (Routes.getTransactionRoute u))
  /\ (forall p, preservesWF (Routes.webhookRoute p))
  /\ (forall u gw, preservesWF (Routes.refundRoute u gw))
  /\ (forall q, preservesWF (Routes.subscriptionsRoute q))
  /\ preservesWF Routes.startupReplay.
Proof.
  destruct wf_getters as (G1 & G2 & G3).
  destruct wf_gateways as (B1 & B2 & B3 & B4).
  split; [|split; [|split; [|split; [|split; [|split]]]]]; intros;
    unfold Routes.createRoute, Routes.statusRoute, Routes.getTransactionRoute,
      Routes.webhookRoute, WebhookService.processWebhookEvent,
      Routes.refundRoute, Routes.subscriptionsRoute, Routes.startupReplay;
    wf_steps.
Qed.

(** The states the server can reach from an empty store through its HTTP
    routes and the startup replay. *)
Inductive served (isEmail : string -> bool) : Store -> Prop :=
| served_init c : served isEmail (emptyStore c)
| served_create st f gw :
    served isEmail st ->
    served isEmail (st_after (Routes.createRoute isEmail f gw) st)
| served_status st u gw :
    served isEmail st -> served isEmail (st_after (Routes.statusRoute u gw) st)
| served_get st u :
    served isEmail st -> served isEmail (st_after (Routes.getTransactionRoute u) st)
| served_webhook st p :
    served isEmail st -> served isEmail (st_after (Routes.webhookRoute p) st)
| served_refund st u gw :
    served isEmail st -> served isEmail (st_after (Routes.refundRoute u gw) st)
| served_subscriptions st q :
    served isEmail st
    -> served isEmail (st_after (Routes.subscriptionsRoute q) st)
| served_replay st :
    served isEmail st -> served isEmail (st_after Routes.startupReplay st).

Lemma served_WF isEmail st : served isEmail st -> WF st.
Proof.
  destruct (wf_routes isEmail) as (R1 & R2 & R3 & R4 & R5 & R6 & R7).
  induction 1; unfold st_after.
  - unfold emptyStore, WF, mapWF. simpl.
    split; [|split]; (split; [constructor|split; intros ? []]).
  - apply R1; assumption.
  - apply R2; assumption.
  - apply R3; assumption.
  - apply R4; assumption.
  - apply R5; assumption.
  - apply R6; assumption.
  - apply R7; assumption.
Qed.

Lemma preserves_extra_routes :
  (forall u, preserves (Routes.getTransactionRoute u))
  /\ (forall q, preserves (Routes.subscriptionsRoute q)).
Proof.
  split; intros; unfold Routes.getTransactionRoute, Routes.subscriptionsRoute,
    MemStorage.getTransactionByUnicId; preserve_steps.
Qed.

Lemma served_noUserInv isEmail st : served isEmail st -> noUserInv st.
Proof.
  destruct (preserves_routes isEmail) as (Pc & Ps & Pw & Pr & Pst).
  destruct preserves_extra_routes as (Pg & Pq).
  induction 1; unfold st_after.
  - split; [intros kv []|reflexivity].
  - apply Pc; assumption.
  - apply Ps; assumption.
  - apply Pg; assumption.
  - apply Pw; assumption.
  - apply Pr; assumption.
  - apply Pq; assumption.
  - apply Pst; assumption.
Qed.

(** X1: in every state the server reaches through its routes and the
    startup replay, each of the three maps has distinct keys, every entry
    is stored under its object's own id, and every id is below the next
    fresh one ([wf_store]). *)
Theorem served_wf_store isEmail st :
  served isEmail st -> wf_store st = true.
Proof.
  intros H. apply wf_store_iff. exact (served_WF isEmail st H).
Qed.

Lemma served_wf_store_witness :
  served containsAt checkoutThenPaid /\ wf_store checkoutThenPaid = true.
Proof.
  assert (H : served containsAt checkoutThenPaid).
  { apply served_webhook, served_create, served_init. }
  split; [exact H|exact (served_wf_store containsAt checkoutThenPaid H)].
Defined.

(** X2: in every state the server reaches, [getUserTransactions] returns
    the empty list for every user id, since the checkout route stores
    [userId: null] and [null === userId] never holds. *)
Theorem served_getUserTransactions_empty isEmail st :
  served isEmail st ->
  forall uid, res_of (MemStorage.getUserTransactions uid) st = Ret [].
Proof.
  intros H uid. destruct (served_noUserInv isEmail st H) as [Ht _].
  unfold res_of, MemStorage.getUserTransactions, bind, get_store, ret.
  simpl. f_equal.
  assert (Hall : forall t, In t (map_values (transactions st)) ->
                 userId t = None).
  { intros t Ht'. apply In_values_In in Ht' as [k Hk]. exact (Ht _ Hk). }
  induction (map_values (transactions st)) as [|t r IH]; simpl; auto.
  rewrite (Hall t (or_introl eq_refl)). apply IH.
  intros x Hx. apply Hall. right. exact Hx.
Qed.

Lemma served_getUserTransactions_empty_witness :
  served containsAt checkoutThenPaid
  /\ length (transactions checkoutThenPaid) = 1%nat
  /\ res_of (MemStorage.getUserTransactions "u1") checkoutThenPaid = Ret [].
Proof.
  assert (H : served containsAt checkoutThenPaid).
  { apply served_webhook, served_create, served_init. }
  split; [exact H|split; [vm_compute; reflexivity|]].
  exact (served_getUserTransactions_empty containsAt checkoutThenPaid H "u1").
Defined.

(** X3: in every state the server reaches, [GET /api/subscriptions]
    answers 400 for a missing or empty [userId] and otherwise 200 with no
    subscription (there is none to find). *)
Theorem served_subscriptionsRoute isEmail st :
  served isEmail st ->
  forall q,
    res_of (Routes.subscriptionsRoute q) st
    = Ret (match q with
           | Some u =>
               if String.eqb u "" then (Routes.mkHttpResponse 400 false, None)
               else (Routes.mkHttpResponse 200 true, None)
           | None => (Routes.mkHttpResponse 400 false, None)
           end).
Proof.
  intros H q. destruct (served_noUserInv isEmail st H) as [_ Hs].
  destruct st as [tx sb ev n c tk]. simpl in Hs. subst sb.
  destruct q as [u|]; [|reflexivity].
  unfold res_of, Routes.subscriptionsRoute, try_catch.
  destruct (String.eqb u ""); reflexivity.
Qed.

Lemma served_subscriptionsRoute_witness :
  served containsAt checkoutThenPaid
  /\ res_of (Routes.subscriptionsRoute (Some "u1")) checkoutThenPaid
     = Ret (Routes.mkHttpResponse 200 true, None).
Proof.
  assert (H : served containsAt checkoutThenPaid).
  { apply served_webhook, served_create, served_init. }
  split; [exact H|].
  exact (served_subscriptionsRoute containsAt checkoutThenPaid H (Some "u1")).
Defined.

(** ** Insert and lookup in [MemStorage] *)

(** The transaction [createTransaction i] builds on store [st]. *)
Definition txOf (i : MemStorage.InsertTransaction) (st : Store) : Transaction :=
  mkTransaction (nextUuid st) (MemStorage.it_unicId i)
    (MemStorage.it_externalId i) (MemStorage.it_userId i)
    (MemStorage.it_amount i) (MemStorage.it_status i)
    (MemStorage.it_paymentMethod i) (MemStorage.it_plan i)
    (MemStorage.it_planTitle i) (MemStorage.it_buyerInfo i)
    (MemStorage.it_paymentData i)
    (JsDate.timeValue (clock st (ticks st)))
    (JsDate.timeValue (clock st (S (ticks st)))).

Lemma createTransaction_eq i st :
  MemStorage.createTransaction i st
  = (Ret (txOf i st),
     mkStore (map_set (nextUuid st) (txOf i st) (transactions st))
       (subscriptions st) (webhookEvents st) (S (nextUuid st)) (clock st)
       (S (S (ticks st)))).
Proof. destruct st. reflexivity. Qed.

Lemma find_app {A} (f : A -> bool) (l1 l2 : list A) :
  find f (l1 ++ l2) = match find f l1 with
                      | Some x => Some x
                      | None => find f l2
                      end.
Proof.
  induction l1 as [|a r IH]; simpl; auto. destruct (f a); auto.
Qed.

Lemma fresh_not_in_keys {V} (idf : V -> Uuid) n (m : JsMap V) :
  mapWF idf n m -> ~ In n (keys m).
Proof. intros (_ & _ & L) Hin. specialize (L n Hin). lia. Qed.

(** X4: in a well-formed store, [createTransaction] returns the new
    transaction under the next fresh id; [getTransaction] then finds it
    under that id and answers as before for every other id, and
    [getTransactionByUnicId] still returns the earlier transaction with the
    same [unicId] if there is one (the new one is only found when no stored
    transaction had its [unicId]). *)
Theorem createTransaction_lookup (i : MemStorage.InsertTransaction)
    (st : Store) :
  wf_store st = true ->
  let st' := st_after (MemStorage.createTransaction i) st in
  exists t,
    res_of (MemStorage.createTransaction i) st = Ret t
    /\ tx_id t = nextUuid st
    /\ unicId t = MemStorage.it_unicId i
    /\ tx_status t = MemStorage.it_status i
    /\ res_of (MemStorage.getTransaction (tx_id t)) st' = Ret (Some t)
    /\ (forall k, k <> tx_id t ->
          res_of (MemStorage.getTransaction k) st'
          = res_of (MemStorage.getTransaction k) st)
    /\ (forall u,
          res_of (MemStorage.getTransactionByUnicId u) st'
          = match res_of (MemStorage.getTransactionByUnicId u) st with
            | Ret None => Ret (if String.eqb (unicId t) u then Some t else None)
            | r => r
            end).
Proof.
  intros Hwf st'. subst st'. apply wf_store_iff in Hwf as (H1 & _ & _).
  exists (txOf i st). unfold res_of, st_after. rewrite createTransaction_eq.
  simpl.
  split; [reflexivity|split; [reflexivity|split; [reflexivity|
    split; [reflexivity|split; [|split]]]]].
  - unfold MemStorage.getTransaction, bind, get_store, ret.
    simpl. rewrite map_get_set_eq. reflexivity.
  - intros k Hk.
    unfold MemStorage.getTransaction, bind, get_store, ret. simpl.
    rewrite map_get_set_neq by (intros E; apply Hk; symmetry; exact E).
    reflexivity.
  - intros u.
    unfold MemStorage.getTransactionByUnicId, bind, get_store, ret. simpl.
    rewrite map_set_fresh by exact (fresh_not_in_keys _ _ _ H1).
    unfold map_values. rewrite map_app, find_app. simpl.
    destruct (find (fun t => String.eqb (unicId t) u)
                (map snd (transactions st))); reflexivity.
Qed.

Lemma createTransaction_lookup_witness :
  let i := MemStorage.mkInsertTransaction "abc" "ext2" None 1990 "pending"
             "pix" "basic" "Acesso" sampleBuyer None in
  wf_store (sampleStore "premium") = true
  /\ (let st' := st_after (MemStorage.createTransaction i)
                   (sampleStore "premium") in
      exists t,
        res_of (MemStorage.createTransaction i) (sampleStore "premium")
          = Ret t
        /\ tx_id t = nextUuid (sampleStore "premium")
        /\ unicId t = MemStorage.it_unicId i
        /\ tx_status t = MemStorage.it_status i
        /\ res_of (MemStorage.getTransaction (tx_id t)) st' = Ret (Some t)
        /\ (forall k, k <> tx_id t ->
              res_of (MemStorage.getTransaction k) st'
              = res_of (MemStorage.getTransaction k) (sampleStore "premium"))
        /\ (forall u,
              res_of (MemStorage.getTransactionByUnicId u) st'
              = match res_of (MemStorage.getTransactionByUnicId u)
                        (sampleStore "premium") with
                | Ret None =>
                    Ret (if String.eqb (unicId t) u then Some t else None)
                | r => r
                end)).
Proof.
  intros i. assert (H : wf_store (sampleStore "premium") = true)
    by (vm_compute; reflexivity).
  split; [exact H|exact (createTransaction_lookup i (sampleStore "premium") H)].
Defined.

(** ** The routes *)

(** X5: the checkout route never throws: it answers 200 exactly when the
    form passes [checkoutFormSchema] and the gateway reply is ok and
    successful, and 400 otherwise; when it answers 400 no transaction,
    subscription or webhook event has been stored. *)
Theorem createRoute_outcome (isEmail : string -> bool)
    (f : Routes.CheckoutForm) (gw : BullsPay.CreateResponse) (st : Store) :
  let okAll := Routes.checkoutFormValid isEmail f && BullsPay.cr_ok gw
               && BullsPay.cr_success gw in
  let st' := st_after (Routes.createRoute isEmail f gw) st in
  res_of (Routes.createRoute isEmail f gw) st
  = Ret (if okAll then Routes.mkHttpResponse 200 true
         else Routes.mkHttpResponse 400 false)
  /\ (okAll = false ->
      transactions st' = transactions st
      /\ subscriptions st' = subscriptions st
      /\ webhookEvents st' = webhookEvents st).
Proof.
  intros okAll st'. subst okAll st'.
  unfold res_of, st_after, Routes.createRoute, Routes.parseCheckoutForm,
    BullsPay.createTransaction.
  destruct (Routes.checkoutFormValid isEmail f); simpl;
    [|split; [reflexivity|auto]].
  destruct st; simpl.
  destruct (BullsPay.cr_ok gw); simpl; [|split; [reflexivity|auto]].
  destruct (BullsPay.cr_success gw); simpl; split; auto; discriminate.
Qed.

Lemma not_in_keys_above {V} (idf : V -> Uuid) n k (m : JsMap V) :
  mapWF idf n m -> (n <= k)%nat -> ~ In k (keys m).
Proof. intros (_ & _ & L) Hle Hin. specialize (L k Hin). lia. Qed.

(** X6: after a successful checkout on a well-formed store,
    [GET /api/transactions/:unicId] with the gateway's payment id answers
    200 with a transaction carrying that id: the one just stored, pending
    and for the submitted price, unless a transaction with the same
    [unicId] was already stored, which is then returned instead. *)
Theorem checkout_then_get (isEmail : string -> bool) (f : Routes.CheckoutForm)
    (gw : BullsPay.CreateResponse) (st : Store) :
  wf_store st = true ->
  res_of (Routes.createRoute isEmail f gw) st
    = Ret (Routes.mkHttpResponse 200 true) ->
  let st' := st_after (Routes.createRoute isEmail f gw) st in
  exists t,
    res_of (Routes.getTransactionRoute (BullsPay.cr_payment_id gw)) st'
      = Ret (Routes.mkHttpResponse 200 true, Some t)
    /\ unicId t = BullsPay.cr_payment_id gw
    /\ match findByUnicId (BullsPay.cr_payment_id gw) (transactions st) with
       | Some t0 => t = t0
       | None => tx_status t = "pending" /\ amount t = Routes.f_price f
       end.
Proof.
  intros Hwf Hres st'. subst st'.
  destruct (createRoute_outcome isEmail f gw st) as [Ho _].
  rewrite Hres in Ho.
  destruct (Routes.checkoutFormValid isEmail f) eqn:Hv,
           (BullsPay.cr_ok gw) eqn:Hok, (BullsPay.cr_success gw) eqn:Hs;
    simpl in Ho; try discriminate.
  apply wf_store_iff in Hwf as (H1 & _ & _).
  assert (Hn : ~ In (S (nextUuid st)) (keys (transactions st)))
    by (apply (not_in_keys_above _ _ _ _ H1); lia).
  unfold findByUnicId. destruct st as [tx sb ev n c tk]. simpl in *.
  unfold st_after, Routes.createRoute, Routes.parseCheckoutForm,
    BullsPay.createTransaction. rewrite Hv, Hok, Hs. simpl.
  unfold res_of, Routes.getTransactionRoute, MemStorage.getTransactionByUnicId,
    try_catch, bind, get_store, ret. simpl.
  rewrite map_set_fresh by exact Hn.
  unfold map_values. rewrite map_app, find_app. simpl.
  destruct (find (fun t => String.eqb (unicId t) (BullsPay.cr_payment_id gw))
              (map snd tx)) as [t0|] eqn:Ef.
  - exists t0. split; [reflexivity|split; [|reflexivity]].
    apply find_some_In in Ef as [_ Ef]. apply String.eqb_eq. exact Ef.
  - rewrite String.eqb_refl. eexists. split; [reflexivity|].
    split; [reflexivity|split; reflexivity].
Qed.

Lemma checkout_then_get_witness :
  wf_store (sampleStore "premium") = true
  /\ res_of (Routes.createRoute containsAt sampleForm pixReply)
       (sampleStore "premium") = Ret (Routes.mkHttpResponse 200 true)
  /\ (let st' := st_after (Routes.createRoute containsAt sampleForm pixReply)
                   (sampleStore "premium") in
      exists t,
        res_of (Routes.getTransactionRoute (BullsPay.cr_payment_id pixReply))
          st' = Ret (Routes.mkHttpResponse 200 true, Some t)
        /\ unicId t = BullsPay.cr_payment_id pixReply
        /\ match findByUnicId (BullsPay.cr_payment_id pixReply)
                   (transactions (sampleStore "premium")) with
           | Some t0 => t = t0
           | None => tx_status t = "pending"
                     /\ amount t = Routes.f_price sampleForm
           end).
Proof.
  assert (H1 : wf_store (sampleStore "premium") = true)
    by (vm_compute; reflexivity).
  assert (H2 : res_of (Routes.createRoute containsAt sampleForm pixReply)
                 (sampleStore "premium") = Ret (Routes.mkHttpResponse 200 true))
    by (vm_compute; reflexivity).
  split; [exact H1|split; [exact H2|]].
  exact (checkout_then_get containsAt sampleForm pixReply
           (sampleStore "premium") H1 H2).
Defined.

(** X7: the status route answers 500 exactly when the gateway call throws
    (a reply that is not ok, or a successful listing without
    [transactions]), and 200 otherwise. It leaves the store unchanged when
    the gateway call throws, and also when no stored transaction has that
    [unicId]; it still answers 200 with [success: true] in that case. *)
Theorem statusRoute_outcome (u : string) (gw : BullsPay.ListResponse)
    (st : Store) :
  res_of (Routes.statusRoute u gw) st
  = Ret (match res_of (BullsPay.checkTransactionStatus gw) st with
         | Ret _ => Routes.mkHttpResponse 200 true
         | Throw _ => Routes.mkHttpResponse 500 false
         end)
  /\ ((exists e, res_of (BullsPay.checkTransactionStatus gw) st = Throw e)
      \/ findByUnicId u (transactions st) = None ->
      st_after (Routes.statusRoute u gw) st = st).
Proof.
  pose proof (BullsPay_checkTransactionStatus_store gw st) as Echk.
  destruct (res_of (BullsPay.checkTransactionStatus gw) st) as [s|e] eqn:Ec;
    unfold res_of, st_after, Routes.statusRoute, try_catch, bind;
    rewrite Echk; simpl.
  - destruct (findByUnicId u (transactions st)) as [t|] eqn:Ef.
    + rewrite updateTransactionStatus_found with (t := t) by exact Ef.
      split; [reflexivity|]. intros [[e He]|He]; discriminate.
    + rewrite updateTransactionStatus_missing by exact Ef.
      split; reflexivity.
  - split; reflexivity.
Qed.

(** X8: the webhook route answers 200 exactly when the body has a [data]
    object, and 500 otherwise; a body without [data] stores no webhook
    event and leaves the whole store unchanged, since [payload.data.unic_id]
    throws before [createWebhookEvent] is called. *)
Theorem webhookRoute_outcome (p : Payload) (st : Store) :
  res_of (Routes.webhookRoute p) st
  = Ret (match data p with
         | Some _ => Routes.mkHttpResponse 200 true
         | None => Routes.mkHttpResponse 500 false
         end)
  /\ (data p = None -> st_after (Routes.webhookRoute p) st = st).
Proof.
  destruct (data p) as [d|] eqn:Hd.
  - destruct (processWebhookEvent_eq p d st Hd) as [st1 [E _]].
    unfold res_of, st_after, Routes.webhookRoute, try_catch, bind.
    rewrite E. split; [reflexivity|discriminate].
  - unfold res_of, st_after, Routes.webhookRoute,
      WebhookService.processWebhookEvent, try_catch, bind.
    rewrite Hd. split; reflexivity.
Qed.

(** X9: the refund route answers 500 when the gateway reply is not ok, and
    otherwise 200 with the gateway's [success] flag. The store changes only
    when the gateway reports success, and then only the first transaction
    with that [unicId] changes, to status [refunded]. When no transaction
    has that [unicId] the route still answers [success: true] and changes
    nothing. *)
Theorem refundRoute_outcome (u : string) (gw : BullsPay.RefundResponse)
    (st : Store) :
  wf_store st = true ->
  let st' := st_after (Routes.refundRoute u gw) st in
  res_of (Routes.refundRoute u gw) st
  = Ret (if BullsPay.rr_ok gw
         then Routes.mkHttpResponse 200 (BullsPay.rr_success gw)
         else Routes.mkHttpResponse 500 false)
  /\ (BullsPay.rr_ok gw && BullsPay.rr_success gw = false -> st' = st)
  /\ (BullsPay.rr_ok gw && BullsPay.rr_success gw = true ->
      match findByUnicId u (transactions st) with
      | None => st' = st
      | Some t =>
          findByUnicId u (transactions st')
          = Some (MemStorage.assignStatus t "refunded" None
                    (JsDate.timeValue (clock st (ticks st))))
      end).
Proof.
  intros Hwf st'. subst st'.
  unfold res_of, st_after, Routes.refundRoute, BullsPay.refundTransaction,
    try_catch.
  destruct (BullsPay.rr_ok gw);
    cbn [negb ret throw bind log fst snd andb];
    [|split; [reflexivity|split; [reflexivity|discriminate]]].
  destruct (BullsPay.rr_success gw);
    cbn [negb ret throw bind log fst snd andb];
    [|split; [reflexivity|split; [reflexivity|discriminate]]].
  unfold bind. destruct (findByUnicId u (transactions st)) as [t|] eqn:Ef.
  - rewrite updateTransactionStatus_found with (t := t) by exact Ef.
    simpl. split; [reflexivity|split; [discriminate|intros _]].
    apply wf_store_props in Hwf as (N & _ & _ & I & _).
    apply find_unicId_map_set; auto.
  - rewrite updateTransactionStatus_missing by exact Ef.
    simpl. split; [reflexivity|split; [discriminate|reflexivity]].
Qed.

Lemma refundRoute_outcome_witness :
  let gw := BullsPay.mkRefundResponse true true in
  wf_store (sampleStore "premium") = true
  /\ (let st' := st_after (Routes.refundRoute "abc" gw) (sampleStore "premium") in
      res_of (Routes.refundRoute "abc" gw) (sampleStore "premium")
      = Ret (if BullsPay.rr_ok gw
             then Routes.mkHttpResponse 200 (BullsPay.rr_success gw)
             else Routes.mkHttpResponse 500 false)
      /\ (BullsPay.rr_ok gw && BullsPay.rr_success gw = false ->
          st' = sampleStore "premium")
      /\ (BullsPay.rr_ok gw && BullsPay.rr_success gw = true ->
          match findByUnicId "abc" (transactions (sampleStore "premium")) with
          | None => st' = sampleStore "premium"
          | Some t =>
              findByUnicId "abc" (transactions st')
              = Some (MemStorage.assignStatus t "refunded" None
                        (JsDate.timeValue (clock (sampleStore "premium")
                                             (ticks (sampleStore "premium")))))
          end)).
Proof.
  intros gw. assert (H : wf_store (sampleStore "premium") = true)
    by (vm_compute; reflexivity).
  split; [exact H|exact (refundRoute_outcome "abc" gw _ H)].
Defined.

(** ** The webhook handler and the replay *)

(** X10: a webhook payload with [data] whose status is not [paid] (for
    instance [failed] or [cancelled], which only log) completes, and only
    the status and [updatedAt] of the first transaction with that [unicId]
    change: no subscription is created, no id is consumed and the webhook
    events are untouched. *)
Theorem handleTransactionEvent_non_paid (p : Payload) (d : PayloadData)
    (st : Store) :
  data p = Some d -> pd_status d <> "paid" ->
  let st' := st_after (WebhookService.handleTransactionEvent p) st in
  res_of (WebhookService.handleTransactionEvent p) st = Ret tt
  /\ subscriptions st' = subscriptions st
  /\ webhookEvents st' = webhookEvents st
  /\ nextUuid st' = nextUuid st
  /\ transactions st'
     = match findByUnicId (unic_id d) (transactions st) with
       | Some t =>
           map_set (tx_id t)
             (MemStorage.assignStatus t (pd_status d) None
                (JsDate.timeValue (clock st (ticks st))))
             (transactions st)
       | None => transactions st
       end.
Proof.
  intros Hd Hnp st'. subst st'. unfold res_of, st_after.
  destruct (findByUnicId (unic_id d) (transactions st)) as [t|] eqn:Ef.
  - rewrite (handleTransactionEvent_found p d st t Hd Ef).
    assert (E : String.eqb (pd_status d) "paid" = false)
      by (apply String.eqb_neq; exact Hnp).
    rewrite E. simpl. repeat split; reflexivity.
  - rewrite (handleTransactionEvent_not_found p d st Hd Ef).
    repeat split; reflexivity.
Qed.

Definition failedPayload : Payload :=
  mkPayload "transaction.updated"
    (Some (mkPayloadData "abc" "subscription_0_0" "failed" 2990)).

Lemma handleTransactionEvent_non_paid_witness :
  let d := mkPayloadData "abc" "subscription_0_0" "failed" 2990 in
  data failedPayload = Some d /\ pd_status d <> "paid"
  /\ (let st' := st_after (WebhookService.handleTransactionEvent failedPayload)
                   (sampleStore "premium") in
      res_of (WebhookService.handleTransactionEvent failedPayload)
        (sampleStore "premium") = Ret tt
      /\ subscriptions st' = subscriptions (sampleStore "premium")
      /\ webhookEvents st' = webhookEvents (sampleStore "premium")
      /\ nextUuid st' = nextUuid (sampleStore "premium")
      /\ transactions st'
         = match findByUnicId (unic_id d)
                   (transactions (sampleStore "premium")) with
           | Some t =>
               map_set (tx_id t)
                 (MemStorage.assignStatus t (pd_status d) None
                    (JsDate.timeValue (clock (sampleStore "premium")
                                         (ticks (sampleStore "premium")))))
                 (transactions (sampleStore "premium"))
           | None => transactions (sampleStore "premium")
           end).
Proof.
  intros d.
  assert (H1 : data failedPayload = Some d) by reflexivity.
  assert (H2 : pd_status d <> "paid") by (simpl; discriminate).
  split; [exact H1|split; [exact H2|]].
  exact (handleTransactionEvent_non_paid failedPayload d _ H1 H2).
Defined.

Lemma processUnprocessedEvents_unfold (st : Store) :
  WebhookService.processUnprocessedEvents st
  = WebhookService.replayEvents
      (filter (fun e => negb (processed e)) (map_values (webhookEvents st)))
      st.
Proof. reflexivity. Qed.

Lemma replayEvents_all_rejected (evs : list WebhookEvent) (st : Store) :
  (forall e, In e evs -> payloadOk (payload e) = false) ->
  WebhookService.replayEvents evs st = (Ret tt, st).
Proof.
  induction evs as [|ev rest IH]; intros H; [reflexivity|].
  assert (Hp := H ev (or_introl eq_refl)). unfold payloadOk in Hp.
  destruct (data (payload ev)) eqn:Hd; [discriminate|].
  simpl. unfold bind at 1, try_catch.
  unfold bind at 1. rewrite handleTransactionEvent_missing_data by exact Hd.
  simpl. apply IH. intros e He. apply H. right. exact He.
Qed.

(** After one replay of a well-formed store, every event still flagged
    unprocessed has a payload the handler rejects. *)
Lemma after_replay_unprocessed_rejected (st : Store) (e : WebhookEvent) :
  WF st ->
  In e (map_values (webhookEvents
                      (st_after WebhookService.processUnprocessedEvents st))) ->
  processed e = false -> payloadOk (payload e) = false.
Proof.
  intros Hwf Hin Hp.
  pose proof (wf_processUnprocessedEvents st Hwf) as (_ & _ & N1 & I1 & _).
  destruct Hwf as (_ & _ & N0 & I0 & _).
  apply In_values_In in Hin as [k Hk].
  assert (Ek : k = ev_id e) by exact (I1 _ Hk).
  apply In_map_get in Hk; [|exact N1].
  set (evs := filter (fun e => negb (processed e))
                (map_values (webhookEvents st))) in *.
  assert (Hnd : NoDup (map ev_id evs)).
  { unfold evs. apply NoDup_map_filter. rewrite ev_ids_keys by exact I0.
    exact N0. }
  destruct (replayEvents_get evs st k Hnd) as [_ G].
  unfold st_after in Hk. rewrite processUnprocessedEvents_unfold in Hk.
  fold evs in Hk. unfold st_after in G. rewrite Hk in G.
  destruct (find (fun e => Nat.eqb (ev_id e) k) evs) as [ev|] eqn:Ef.
  - apply find_some_In in Ef as [Hev Hid]. apply Nat.eqb_eq in Hid.
    destruct (payloadOk (payload ev)) eqn:Hok.
    + destruct (map_get k (webhookEvents st)); simpl in G; [|discriminate].
      injection G as G. rewrite G in Hp. discriminate.
    + unfold evs in Hev. apply filter_In in Hev as [Hev _].
      apply In_values_In in Hev as [k' Hk'].
      assert (k' = ev_id ev) as Ek' by exact (I0 _ Hk').
      apply In_map_get in Hk'; [|exact N0].
      rewrite Ek', Hid in Hk'. rewrite Hk' in G. injection G as ->.
      exact Hok.
  - symmetry in G. unfold evs in Ef.
    rewrite (find_unprocessed _ k e I0 G Hp) in Ef.
    discriminate.
Qed.

(** X11: on a well-formed store, a second startup replay right after a
    first one changes nothing: the events left unprocessed by the first are
    exactly those whose payload has no [data], and the handler rejects them
    again before touching the store. *)
Theorem processUnprocessedEvents_twice (st : Store) :
  wf_store st = true ->
  let st1 := st_after WebhookService.processUnprocessedEvents st in
  WebhookService.processUnprocessedEvents st1 = (Ret tt, st1).
Proof.
  intros Hwf st1. apply wf_store_iff in Hwf.
  rewrite processUnprocessedEvents_unfold.
  apply replayEvents_all_rejected. intros e He.
  apply filter_In in He as [Hin Hp]. apply negb_true_iff in Hp.
  exact (after_replay_unprocessed_rejected st e Hwf Hin Hp).
Qed.

Lemma processUnprocessedEvents_twice_witness :
  wf_store replayStore = true
  /\ (let st1 := st_after WebhookService.processUnprocessedEvents replayStore in
      WebhookService.processUnprocessedEvents st1 = (Ret tt, st1)).
Proof.
  assert (H : wf_store replayStore = true) by (vm_compute; reflexivity).
  split; [exact H|exact (processUnprocessedEvents_twice replayStore H)].
Defined.

(** ** Subscriptions by id *)

(** X12: [updateSubscriptionStatus] on an id with no subscription returns
    [undefined] and leaves the store unchanged; on a stored subscription it
    returns it with the new status and every other field kept, and
    [getSubscription] then finds that updated subscription under the same
    id, answers as before for every other id, and no key is added. *)
Theorem updateSubscriptionStatus_lookup (id : Uuid) (status : string)
    (st : Store) :
  let st' := st_after (MemStorage.updateSubscriptionStatus id status) st in
  match map_get id (subscriptions st) with
  | None => MemStorage.updateSubscriptionStatus id status st = (Ret None, st)
  | Some sub =>
      let sub' := mkSubscription (sub_id sub) (sub_userId sub)
                    (sub_transactionId sub) (sub_plan sub) status
                    (startDate sub) (endDate sub) (sub_createdAt sub) in
      res_of (MemStorage.updateSubscriptionStatus id status) st
        = Ret (Some sub')
      /\ res_of (MemStorage.getSubscription id) st' = Ret (Some sub')
      /\ (forall k, k <> id ->
            res_of (MemStorage.getSubscription k) st'
            = res_of (MemStorage.getSubscription k) st)
      /\ keys (subscriptions st') = keys (subscriptions st)
  end.
Proof.
  intros st'. subst st'.
  destruct (map_get id (subscriptions st)) as [sb|] eqn:G.
  - unfold res_of, st_after, MemStorage.updateSubscriptionStatus,
      MemStorage.getSubscription, bind, get_store, set_subscriptions, ret.
    simpl. rewrite G. simpl.
    split; [reflexivity|split; [|split]].
    + rewrite map_get_set_eq. reflexivity.
    + intros k Hk. rewrite map_get_set_neq by
        (intros E; apply Hk; symmetry; exact E). reflexivity.
    + apply keys_map_set_in. apply map_get_In in G.
      apply (in_map fst _ (id, sb)). exact G.
  - unfold MemStorage.updateSubscriptionStatus, bind, get_store, ret.
    rewrite G. reflexivity.
Qed.

(** Transaction [abc] of user [u1] paid twice: two active subscriptions,
    with ids 1 and 2. *)
Definition twoSubscriptionsStore : Store :=
  st_after (WebhookService.handleTransactionEvent paidPayload ;;;
            WebhookService.handleTransactionEvent paidPayload)
    (sampleStore "premium").

(** X13: in a well-formed store, after [updateSubscriptionStatus] sets a
    status other than [active] on id [id], [getUserActiveSubscription]
    never returns the subscription with that id, for any user. *)
Theorem updateSubscriptionStatus_deactivates (id : Uuid) (status : string)
    (st : Store) (uid : string) (s : Subscription) :
  wf_store st = true -> status <> "active" ->
  res_of (MemStorage.getUserActiveSubscription uid)
    (st_after (MemStorage.updateSubscriptionStatus id status) st)
  = Ret (Some s) ->
  sub_id s <> id.
Proof.
  intros Hwf Hna Hres Eid. apply wf_store_iff in Hwf.
  pose proof (wf_updateSubscriptionStatus id status st Hwf)
    as (_ & (N1 & I1 & _) & _).
  set (st' := st_after (MemStorage.updateSubscriptionStatus id status) st)
    in *.
  unfold res_of, MemStorage.getUserActiveSubscription, bind, newDate,
    get_store, ret in Hres. simpl in Hres. injection Hres as Hres.
  apply find_some_In in Hres as [Hin Hc].
  apply andb_prop in Hc as [Hc _]. apply andb_prop in Hc as [_ Hs].
  apply String.eqb_eq in Hs.
  apply In_values_In in Hin as [k Hk].
  assert (Ek : k = sub_id s) by exact (I1 _ Hk).
  apply In_map_get in Hk; [|exact N1]. rewrite Ek, Eid in Hk.
  pose proof (updateSubscriptionStatus_lookup id status st) as L.
  simpl in L. fold st' in L.
  destruct (map_get id (subscriptions st)) as [sb|] eqn:G.
  - destruct L as (_ & L & _).
    unfold res_of, MemStorage.getSubscription, bind, get_store, ret in L.
    simpl in L. rewrite Hk in L. injection L as L.
    rewrite L in Hs. simpl in Hs. contradiction.
  - unfold st' , st_after in Hk. rewrite L in Hk. simpl in Hk.
    rewrite Hk in G. discriminate.
Qed.

Lemma updateSubscriptionStatus_deactivates_witness :
  wf_store twoSubscriptionsStore = true /\ "cancelled" <> "active"
  /\ res_of (MemStorage.getUserActiveSubscription "u1")
       (st_after (MemStorage.updateSubscriptionStatus 1%nat "cancelled")
          twoSubscriptionsStore)
     = Ret (Some (mkSubscription 2%nat (Some "u1") 0%nat "premium" "active"
          (JsDate.timeValue (tickingClock 5)) (JsDate.setMonth (tickingClock 6) 1)
          (JsDate.timeValue (tickingClock 7))))
  /\ sub_id (mkSubscription 2%nat (Some "u1") 0%nat "premium" "active"
          (JsDate.timeValue (tickingClock 5)) (JsDate.setMonth (tickingClock 6) 1)
          (JsDate.timeValue (tickingClock 7))) <> 1%nat.
Proof.
  assert (H1 : wf_store twoSubscriptionsStore = true)
    by (vm_compute; reflexivity).
  assert (H2 : "cancelled" <> "active") by discriminate.
  assert (H3 : res_of (MemStorage.getUserActiveSubscription "u1")
       (st_after (MemStorage.updateSubscriptionStatus 1%nat "cancelled")
          twoSubscriptionsStore)
     = Ret (Some (mkSubscription 2%nat (Some "u1") 0%nat "premium" "active"
          (JsDate.timeValue (tickingClock 5)) (JsDate.setMonth (tickingClock 6) 1)
          (JsDate.timeValue (tickingClock 7)))))
    by (vm_compute; reflexivity).
  split; [exact H1|split; [exact H2|split; [exact H3|]]].
  exact (updateSubscriptionStatus_deactivates 1%nat "cancelled"
           twoSubscriptionsStore "u1" _ H1 H2 H3).
Defined.

(** ** Client-side input masks *)

Module ClientFacts.
Import Client.

Arguments isDigit : simpl never.

Lemma isDigit_space : isDigit " "%char = false.
Proof. reflexivity. Qed.
Lemma isDigit_dot : isDigit "."%char = false.
Proof. reflexivity. Qed.
Lemma isDigit_dash : isDigit "-"%char = false.
Proof. reflexivity. Qed.
Lemma isDigit_lparen : isDigit "("%char = false.
Proof. reflexivity. Qed.
Lemma isDigit_rparen : isDigit ")"%char = false.
Proof. reflexivity. Qed.

Ltac digit_eval :=
  repeat (progress (simpl;
    repeat match goal with
           | H : isDigit ?x = true |- context [isDigit ?x] => rewrite H
           end;
    rewrite ?isDigit_space, ?isDigit_dot, ?isDigit_dash, ?isDigit_lparen,
      ?isDigit_rparen, ?andb_false_r, ?andb_true_r)).

Ltac split_digits H :=
  simpl in H;
  repeat match goal with
         | E : _ && _ = true |- _ => apply andb_prop in E as [? E]
         end.

Lemma digitsOnly_app (a b : list ascii) :
  digitsOnly (a ++ b) = (digitsOnly a ++ digitsOnly b)%list.
Proof. apply filter_app. Qed.

Lemma digitsOnly_idem (l : list ascii) : digitsOnly (digitsOnly l) = digitsOnly l.
Proof.
  unfold digitsOnly. induction l as [|c l IH]; [reflexivity|].
  simpl. destruct (isDigit c) eqn:D; simpl; [rewrite D, IH|]; exact IH || reflexivity.
Qed.

Lemma digitsOnly_forallb (l : list ascii) : forallb isDigit (digitsOnly l) = true.
Proof.
  unfold digitsOnly. induction l as [|c l IH]; [reflexivity|].
  simpl. destruct (isDigit c) eqn:D; simpl; [rewrite D|]; exact IH.
Qed.

Lemma greedyGroups_concat (sizes : list nat) (l : list ascii) gs :
  greedyGroups sizes l = Some gs -> concat gs = l.
Proof.
  revert l gs. induction sizes as [|n r IH]; intros l gs E; simpl in E.
  - destruct l; inversion E; reflexivity.
  - destruct (greedyGroups r (skipn n l)) as [gs'|] eqn:G; inversion E.
    simpl. rewrite (IH _ _ G). apply firstn_skipn.
Qed.

Lemma greedyGroups_length (sizes : list nat) (l : list ascii) gs :
  greedyGroups sizes l = Some gs -> length gs = length sizes.
Proof.
  revert l gs. induction sizes as [|n r IH]; intros l gs E; simpl in E.
  - destruct l; inversion E; reflexivity.
  - destruct (greedyGroups r (skipn n l)) as [gs'|] eqn:G; inversion E.
    simpl. rewrite (IH _ _ G). reflexivity.
Qed.

Lemma greedyGroups_some (sizes : list nat) (l : list ascii) :
  (length l <= list_sum sizes)%nat -> exists gs, greedyGroups sizes l = Some gs.
Proof.
  revert l. induction sizes as [|n r IH]; intros l Hl; simpl in *.
  - destruct l; [eauto|simpl in Hl; lia].
  - destruct (IH (skipn n l)) as [gs G]; [rewrite length_skipn; lia|].
    rewrite G. eauto.
Qed.

Lemma greedyGroups_none (sizes : list nat) (l : list ascii) :
  (list_sum sizes < length l)%nat -> greedyGroups sizes l = None.
Proof.
  revert l. induction sizes as [|n r IH]; intros l Hl; simpl in *.
  - destruct l; [simpl in Hl; lia|reflexivity].
  - rewrite IH; [reflexivity|rewrite length_skipn; lia].
Qed.

Lemma concat_filter_nonEmpty (gs : list (list ascii)) :
  concat (filter nonEmpty gs) = concat gs.
Proof. induction gs as [|[|c g] gs IH]; simpl; congruence. Qed.

Lemma digitsOnly_joinWith (sep : list ascii) (gs : list (list ascii)) :
  digitsOnly sep = [] -> digitsOnly (joinWith sep gs) = digitsOnly (concat gs).
Proof.
  intros Hs. induction gs as [|g gs IH]; [reflexivity|].
  destruct gs as [|g' gs].
  - simpl. rewrite app_nil_r. reflexivity.
  - change (joinWith sep (g :: g' :: gs))
      with (g ++ sep ++ joinWith sep (g' :: gs))%list.
    change (concat (g :: g' :: gs)) with (g ++ concat (g' :: gs))%list.
    rewrite !digitsOnly_app, Hs, IH. reflexivity.
Qed.

Lemma length_joinWith (sep : list ascii) (gs : list (list ascii)) :
  length (joinWith sep gs)
  = (length (concat gs) + length sep * (length gs - 1))%nat.
Proof.
  induction gs as [|g gs IH]; [simpl; lia|].
  destruct gs as [|g' gs].
  - simpl. rewrite app_nil_r. lia.
  - change (joinWith sep (g :: g' :: gs))
      with (g ++ sep ++ joinWith sep (g' :: gs))%list.
    change (concat (g :: g' :: gs)) with (g ++ concat (g' :: gs))%list.
    rewrite !length_app, IH. simpl length. nia.
Qed.

Lemma rev_shape (l : list ascii) x xs :
  rev l = x :: xs -> l = (rev xs ++ [x])%list.
Proof. intros E. rewrite <- (rev_involutive l), E. reflexivity. Qed.

Lemma replaceDotPairAtEnd_spec (l : list ascii) :
  digitsOnly (replaceDotPairAtEnd l) = digitsOnly l
  /\ length (replaceDotPairAtEnd l) = length l.
Proof.
  unfold replaceDotPairAtEnd.
  destruct (rev l) as [|d2 [|d1 [|c rpre]]] eqn:E; try (split; reflexivity).
  destruct (Ascii.eqb c "." && isDigit d1 && isDigit d2) eqn:C;
    [|split; reflexivity].
  apply andb_prop in C as [C _]. apply andb_prop in C as [C _].
  apply Ascii.eqb_eq in C. subst c.
  apply rev_shape in E. subst l. simpl rev. rewrite <- !app_assoc.
  simpl app. rewrite !digitsOnly_app, !length_app. split; [|reflexivity].
  f_equal; reflexivity.
Qed.

Lemma parenthesizeLeadingPair_spec (l : list ascii) :
  digitsOnly (parenthesizeLeadingPair l) = digitsOnly l
  /\ (length (parenthesizeLeadingPair l) <= length l + 2)%nat.
Proof.
  unfold parenthesizeLeadingPair.
  destruct l as [|d1 [|d2 rest]]; try (simpl; split; [reflexivity|lia]).
  destruct (isDigit d1 && isDigit d2); [|simpl; split; [reflexivity|lia]].
  split; [|simpl; lia].
  change ("("%char :: d1 :: d2 :: ")"%char :: rest)%list
    with (["("%char] ++ [d1; d2] ++ [")"%char] ++ rest)%list.
  change (d1 :: d2 :: rest) with ([d1; d2] ++ rest)%list.
  rewrite !digitsOnly_app. unfold digitsOnly at 1 3. digit_eval. reflexivity.
Qed.

Lemma spaceBeforeLastFive_spec (l : list ascii) :
  digitsOnly (spaceBeforeLastFive l) = digitsOnly l
  /\ (length (spaceBeforeLastFive l) <= length l + 1)%nat.
Proof.
  unfold spaceBeforeLastFive.
  destruct (_ && _); [|split; [reflexivity|lia]].
  split.
  - rewrite digitsOnly_app.
    change (" "%char :: skipn (length l - 5) l)%list
      with ([" "%char] ++ skipn (length l - 5) l)%list.
    rewrite digitsOnly_app.
    replace (digitsOnly [" "%char]) with (@nil ascii) by reflexivity.
    simpl app. rewrite <- digitsOnly_app, firstn_skipn. reflexivity.
  - rewrite length_app. simpl length.
    rewrite length_firstn, length_skipn. lia.
Qed.

Lemma dashBeforeLastFour_spec (l : list ascii) :
  digitsOnly (dashBeforeLastFour l) = digitsOnly l
  /\ length (dashBeforeLastFour l) = length l.
Proof.
  unfold dashBeforeLastFour.
  destruct (rev l) as [|d4 [|d3 [|d2 [|d1 [|c rpre]]]]] eqn:E;
    try (split; reflexivity).
  destruct (Ascii.eqb c " " && _ && _ && _ && _) eqn:C;
    [|split; reflexivity].
  repeat (apply andb_prop in C as [C _]).
  apply Ascii.eqb_eq in C. subst c.
  apply rev_shape in E. subst l. simpl rev. rewrite <- !app_assoc.
  simpl app. rewrite !digitsOnly_app, !length_app. split; [|reflexivity].
  f_equal; reflexivity.
Qed.

Lemma formatCPF_groups (value : list ascii) :
  (length (digitsOnly value) <= 11)%nat ->
  exists gs, greedyGroups [3; 3; 3; 2]%nat (digitsOnly value) = Some gs
    /\ formatCPF value
       = replaceDotPairAtEnd (joinWith ["."%char] (filter nonEmpty gs)).
Proof.
  intros H. destruct (greedyGroups_some [3; 3; 3; 2]%nat (digitsOnly value))
    as [gs G]; [exact H|].
  exists gs. unfold formatCPF. rewrite G. split; reflexivity.
Qed.

Lemma formatPhone_groups (value : list ascii) :
  (length (digitsOnly value) <= 11)%nat ->
  exists gs, greedyGroups [2; 5; 4]%nat (digitsOnly value) = Some gs
    /\ formatPhone value
       = dashBeforeLastFour (spaceBeforeLastFive (parenthesizeLeadingPair
           (joinWith [" "%char] (filter nonEmpty gs)))).
Proof.
  intros H. destruct (greedyGroups_some [2; 5; 4]%nat (digitsOnly value))
    as [gs G]; [exact H|].
  exists gs. unfold formatPhone. rewrite G. split; reflexivity.
Qed.

Lemma formatCPF_digitsOnly (value : list ascii) :
  (length (digitsOnly value) <= 11)%nat ->
  digitsOnly (formatCPF value) = digitsOnly value.
Proof.
  intros H. destruct (formatCPF_groups value H) as (gs & G & ->).
  rewrite (proj1 (replaceDotPairAtEnd_spec _)).
  rewrite digitsOnly_joinWith by reflexivity.
  rewrite concat_filter_nonEmpty, (greedyGroups_concat _ _ _ G).
  apply digitsOnly_idem.
Qed.

Lemma formatPhone_digitsOnly (value : list ascii) :
  (length (digitsOnly value) <= 11)%nat ->
  digitsOnly (formatPhone value) = digitsOnly value.
Proof.
  intros H. destruct (formatPhone_groups value H) as (gs & G & ->).
  rewrite (proj1 (dashBeforeLastFour_spec _)),
    (proj1 (spaceBeforeLastFive_spec _)),
    (proj1 (parenthesizeLeadingPair_spec _)).
  rewrite digitsOnly_joinWith by reflexivity.
  rewrite concat_filter_nonEmpty, (greedyGroups_concat _ _ _ G).
  apply digitsOnly_idem.
Qed.

Lemma formatCPF_via_digits (value : list ascii) :
  (length (digitsOnly value) <= 11)%nat ->
  formatCPF value = formatCPF (digitsOnly value).
Proof.
  intros H. unfold formatCPF. rewrite digitsOnly_idem.
  destruct (greedyGroups_some [3; 3; 3; 2]%nat (digitsOnly value))
    as [gs G]; [exact H|]. rewrite G. reflexivity.
Qed.

Lemma formatPhone_via_digits (value : list ascii) :
  (length (digitsOnly value) <= 11)%nat ->
  formatPhone value = formatPhone (digitsOnly value).
Proof.
  intros H. unfold formatPhone. rewrite digitsOnly_idem.
  destruct (greedyGroups_some [2; 5; 4]%nat (digitsOnly value))
    as [gs G]; [exact H|]. rewrite G. reflexivity.
Qed.

Lemma formatPhone_eleven (d0 d1 d2 d3 d4 d5 d6 d7 d8 d9 d10 : ascii) :
  forallb isDigit [d0; d1; d2; d3; d4; d5; d6; d7; d8; d9; d10] = true ->
  formatPhone [d0; d1; d2; d3; d4; d5; d6; d7; d8; d9; d10]
  = ["("%char; d0; d1; ")"%char; " "%char; d2; d3; d4; d5; d6; "-"%char;
     d7; d8; d9; d10].
Proof.
  intros H. split_digits H.
  unfold formatPhone, digitsOnly, dashBeforeLastFour, spaceBeforeLastFive,
    parenthesizeLeadingPair.
  digit_eval. reflexivity.
Qed.

(** X14: [formatCPF] lays out eleven digits as the placeholder
    [000.000.000-00] shows: dots after the third and sixth digits and a dash
    before the last two. *)
Theorem formatCPF_layout (d0 d1 d2 d3 d4 d5 d6 d7 d8 d9 d10 : ascii) :
  forallb isDigit [d0; d1; d2; d3; d4; d5; d6; d7; d8; d9; d10] = true ->
  formatCPF [d0; d1; d2; d3; d4; d5; d6; d7; d8; d9; d10]
  = [d0; d1; d2; "."%char; d3; d4; d5; "."%char; d6; d7; d8; "-"%char;
     d9; d10].
Proof.
  intros H. split_digits H.
  unfold formatCPF, digitsOnly, replaceDotPairAtEnd.
  digit_eval. reflexivity.
Qed.

Lemma formatCPF_layout_witness :
  forallb isDigit (list_ascii_of_string "12345678901") = true
  /\ formatCPF (list_ascii_of_string "12345678901")
     = list_ascii_of_string "123.456.789-01".
Proof.
  split; [reflexivity|].
  exact (formatCPF_layout "1" "2" "3" "4" "5" "6" "7" "8" "9" "0" "1"
           eq_refl).
Defined.

(** X15: [formatPhone] lays out eleven digits as the placeholder
    [(11) 99999-9999] shows, but ten digits as [(dd) ddddd ddd]: the area
    code in parentheses, then five digits, a space (no dash) and the last
    three. *)
Theorem formatPhone_layout (d0 d1 d2 d3 d4 d5 d6 d7 d8 d9 d10 : ascii) :
  forallb isDigit [d0; d1; d2; d3; d4; d5; d6; d7; d8; d9; d10] = true ->
  formatPhone [d0; d1; d2; d3; d4; d5; d6; d7; d8; d9; d10]
  = ["("%char; d0; d1; ")"%char; " "%char; d2; d3; d4; d5; d6; "-"%char;
     d7; d8; d9; d10]
  /\ formatPhone [d0; d1; d2; d3; d4; d5; d6; d7; d8; d9]
  = ["("%char; d0; d1; ")"%char; " "%char; d2; d3; d4; d5; d6; " "%char;
     d7; d8; d9].
Proof.
  intros H. split; [exact (formatPhone_eleven _ _ _ _ _ _ _ _ _ _ _ H)|].
  split_digits H.
  unfold formatPhone, digitsOnly, dashBeforeLastFour, spaceBeforeLastFive,
    parenthesizeLeadingPair.
  digit_eval. reflexivity.
Qed.

Lemma formatPhone_layout_witness :
  forallb isDigit (list_ascii_of_string "11987654321") = true
  /\ formatPhone (list_ascii_of_string "11987654321")
     = list_ascii_of_string "(11) 98765-4321"
  /\ formatPhone (list_ascii_of_string "1198765432")
     = list_ascii_of_string "(11) 98765 432".
Proof.
  split; [reflexivity|].
  exact (formatPhone_layout "1" "1" "9" "8" "7" "6" "5" "4" "3" "2" "1"
           eq_refl).
Defined.

(** X16: a value with more than eleven digits matches neither mask, and
    both formatters return it as it is, separators and all. *)
Theorem format_too_many_digits (value : list ascii) :
  (11 < length (digitsOnly value))%nat ->
  formatCPF value = value /\ formatPhone value = value.
Proof.
  intros H. unfold formatCPF, formatPhone.
  rewrite !greedyGroups_none by (simpl; lia). split; reflexivity.
Qed.

Lemma format_too_many_digits_witness :
  (11 < length (digitsOnly (list_ascii_of_string "123.456.789-012")))%nat
  /\ formatCPF (list_ascii_of_string "123.456.789-012")
     = list_ascii_of_string "123.456.789-012"
  /\ formatPhone (list_ascii_of_string "123.456.789-012")
     = list_ascii_of_string "123.456.789-012".
Proof.
  assert (H : (11 < length (digitsOnly (list_ascii_of_string "123.456.789-012")))%nat)
    by (vm_compute; lia).
  split; [exact H|exact (format_too_many_digits _ H)].
Defined.

(** X17: with at most eleven digits, the masks only add separators: the
    digits of [formatCPF value] and of [formatPhone value] are the digits of
    [value] (so the input's [onChange], which strips non-digits, gives back
    the stored digits), and formatting a formatted value changes nothing. *)
Theorem format_digits_round_trip (value : list ascii) :
  (length (digitsOnly value) <= 11)%nat ->
  digitsOnly (formatCPF value) = digitsOnly value
  /\ digitsOnly (formatPhone value) = digitsOnly value
  /\ formatCPF (formatCPF value) = formatCPF value
  /\ formatPhone (formatPhone value) = formatPhone value.
Proof.
  intros H.
  pose proof (formatCPF_digitsOnly value H) as C.
  pose proof (formatPhone_digitsOnly value H) as P.
  split; [exact C|split; [exact P|split]].
  - rewrite (formatCPF_via_digits (formatCPF value)) by (rewrite C; exact H).
    rewrite C. symmetry. apply formatCPF_via_digits. exact H.
  - rewrite (formatPhone_via_digits (formatPhone value)) by (rewrite P; exact H).
    rewrite P. symmetry. apply formatPhone_via_digits. exact H.
Qed.

Lemma format_digits_round_trip_witness :
  (length (digitsOnly (list_ascii_of_string "(11) 98765-432")) <= 11)%nat
  /\ digitsOnly (formatCPF (list_ascii_of_string "(11) 98765-432"))
     = digitsOnly (list_ascii_of_string "(11) 98765-432")
  /\ digitsOnly (formatPhone (list_ascii_of_string "(11) 98765-432"))
     = digitsOnly (list_ascii_of_string "(11) 98765-432")
  /\ formatCPF (formatCPF (list_ascii_of_string "(11) 98765-432"))
     = formatCPF (list_ascii_of_string "(11) 98765-432")
  /\ formatPhone (formatPhone (list_ascii_of_string "(11) 98765-432"))
     = formatPhone (list_ascii_of_string "(11) 98765-432").
Proof.
  assert (H : (length (digitsOnly (list_ascii_of_string "(11) 98765-432")) <= 11)%nat)
    by (vm_compute; lia).
  split; [exact H|exact (format_digits_round_trip _ H)].
Defined.

(** X18: with at most eleven digits, the formatted CPF has at most 14
    characters and the formatted phone at most 15: the [maxLength] of the
    two inputs. *)
Theorem format_fits_maxLength (value : list ascii) :
  (length (digitsOnly value) <= 11)%nat ->
  (length (formatCPF value) <= 14)%nat
  /\ (length (formatPhone value) <= 15)%nat.
Proof.
  intros H. split.
  - destruct (formatCPF_groups value H) as (gs & G & ->).
    rewrite (proj2 (replaceDotPairAtEnd_spec _)), length_joinWith,
      concat_filter_nonEmpty, (greedyGroups_concat _ _ _ G).
    pose proof (filter_length_le nonEmpty gs) as Lf.
    rewrite (greedyGroups_length _ _ _ G) in Lf. simpl in Lf |- *. lia.
  - destruct (Nat.eq_dec (length (digitsOnly value)) 11) as [E|E].
    + rewrite formatPhone_via_digits by exact H.
      pose proof (digitsOnly_forallb value) as F.
      remember (digitsOnly value) as d eqn:Ed. clear Ed H.
      do 11 (destruct d as [|? d]; [simpl in E; lia|]).
      destruct d; [|simpl in E; lia].
      rewrite (formatPhone_eleven _ _ _ _ _ _ _ _ _ _ _ F). simpl. lia.
    + destruct (formatPhone_groups value H) as (gs & G & ->).
      rewrite (proj2 (dashBeforeLastFour_spec _)).
      pose proof (proj2 (spaceBeforeLastFive_spec
        (parenthesizeLeadingPair (joinWith [" "%char] (filter nonEmpty gs)))))
        as L1.
      pose proof (proj2 (parenthesizeLeadingPair_spec
        (joinWith [" "%char] (filter nonEmpty gs)))) as L2.
      rewrite length_joinWith, concat_filter_nonEmpty,
        (greedyGroups_concat _ _ _ G) in L2.
      pose proof (filter_length_le nonEmpty gs) as Lf.
      rewrite (greedyGroups_length _ _ _ G) in Lf. simpl in Lf, L2. lia.
Qed.

Lemma format_fits_maxLength_witness :
  (length (digitsOnly (list_ascii_of_string "11987654321")) <= 11)%nat
  /\ (length (formatCPF (list_ascii_of_string "11987654321")) <= 14)%nat
  /\ (length (formatPhone (list_ascii_of_string "11987654321")) <= 15)%nat.
Proof.
  assert (H : (length (digitsOnly (list_ascii_of_string "11987654321")) <= 11)%nat)
    by (vm_compute; lia).
  split; [exact H|exact (format_fits_maxLength _ H)].
Defined.

End ClientFacts.

(** ** Who sets the [processed] flag of a stored webhook event *)

(** From [st] to [st'], every stored event is kept as it is, and every
    event stored with [processed = true] in [st'] was stored, the same, in
    [st]: no flag is changed and no event arrives already processed. *)
Definition flagFrame (st st' : Store) : Prop :=
  (forall k e, map_get k (webhookEvents st) = Some e ->
               map_get k (webhookEvents st') = Some e)
  /\ (forall k e, map_get k (webhookEvents st') = Some e ->
                  processed e = true ->
                  map_get k (webhookEvents st) = Some e).

Definition keepsFlags {A} (m : M A) : Prop :=
  forall st, WF st -> flagFrame st (st_after m st).

Definition eventsUntouched {A} (m : M A) : Prop :=
  forall st, webhookEvents (st_after m st) = webhookEvents st.

(** The handlers other than the startup replay: the six request routes,
    and the two webhook service entry points they use. *)
Definition onlyReplayMarks : Prop :=
  (forall isEmail f gw, keepsFlags (Routes.createRoute isEmail f gw))
  /\ (forall u gw, keepsFlags (Routes.statusRoute u gw))
  /\ (forall u, keepsFlags (Routes.getTransactionRoute u))
  /\ (forall p, keepsFlags (Routes.webhookRoute p))
  /\ (forall u gw, keepsFlags (Routes.refundRoute u gw))
  /\ (forall q, keepsFlags (Routes.subscriptionsRoute q))
  /\ (forall p, keepsFlags (WebhookService.processWebhookEvent p))
  /\ (forall p, keepsFlags (WebhookService.handleTransactionEvent p)).

Lemma flagFrame_same (st st' : Store) :
  webhookEvents st' = webhookEvents st -> flagFrame st st'.
Proof. intros E. split; intros k e; rewrite E; auto. Qed.

Lemma flagFrame_trans (a b c : Store) :
  flagFrame a b -> flagFrame b c -> flagFrame a c.
Proof.
  intros [F1 B1] [F2 B2]. split; intros k e G.
  - apply F2, F1, G.
  - intros P. apply B1; [apply B2|]; assumption.
Qed.

Lemma keeps_untouched {A} (m : M A) : eventsUntouched m -> keepsFlags m.
Proof. intros U st _. apply flagFrame_same, U. Qed.

Lemma untouched_ret {A} (a : A) : eventsUntouched (ret a).
Proof. intros st. reflexivity. Qed.

Lemma untouched_throw {A} (e : string) : eventsUntouched (@throw A e).
Proof. intros st. reflexivity. Qed.

Lemma untouched_log (e : string) : eventsUntouched (log e).
Proof. intros st. reflexivity. Qed.

Lemma untouched_newDate : eventsUntouched newDate.
Proof. intros []. reflexivity. Qed.

Lemma untouched_randomUUID : eventsUntouched randomUUID.
Proof. intros []. reflexivity. Qed.

Lemma untouched_createTransaction i :
  eventsUntouched (MemStorage.createTransaction i).
Proof. intros []. reflexivity. Qed.

Lemma untouched_createSubscription i :
  eventsUntouched (MemStorage.createSubscription i).
Proof. intros []. reflexivity. Qed.

Lemma untouched_updateTransactionStatus u status pd :
  eventsUntouched (MemStorage.updateTransactionStatus u status pd).
Proof.
  intros st. unfold st_after.
  destruct (findByUnicId u (transactions st)) as [t|] eqn:Ef.
  - rewrite updateTransactionStatus_found with (t := t) by exact Ef.
    reflexivity.
  - rewrite updateTransactionStatus_missing by exact Ef. reflexivity.
Qed.

Lemma untouched_getters :
  (forall u, eventsUntouched (MemStorage.getTransactionByUnicId u))
  /\ (forall uid, eventsUntouched (MemStorage.getUserActiveSubscription uid)).
Proof. split; intros ? []; reflexivity. Qed.

Lemma untouched_gateways :
  (forall gw, eventsUntouched (BullsPay.createTransaction gw))
  /\ (forall gw, eventsUntouched (BullsPay.checkTransactionStatus gw))
  /\ (forall gw, eventsUntouched (BullsPay.refundTransaction gw))
  /\ (forall isEmail f, eventsUntouched (Routes.parseCheckoutForm isEmail f)).
Proof.
  split; [|split; [|split]]; intros; intros st;
    unfold BullsPay.createTransaction, BullsPay.checkTransactionStatus,
      BullsPay.refundTransaction, Routes.parseCheckoutForm;
    repeat match goal with
           | |- context [if ?b then _ else _] => destruct b
           | |- context [match ?x with _ => _ end] => destruct x
           end; reflexivity.
Qed.

(** Storing an event created unprocessed, in a well-formed store: the fresh
    id is no key yet, so no stored event is overwritten. *)
Lemma keeps_createWebhookEvent i :
  MemStorage.iw_processed i = false ->
  keepsFlags (MemStorage.createWebhookEvent i).
Proof.
  intros Hp [] (_ & _ & (_ & _ & Hlt)). simpl in Hlt.
  unfold st_after, MemStorage.createWebhookEvent, bind, randomUUID, newDate,
    get_store, set_webhookEvents, ret. simpl.
  unfold flagFrame. cbn [webhookEvents].
  assert (Fresh : forall k e, map_get k webhookEvents0 = Some e ->
                              k <> nextUuid0).
  { intros k e G ->. apply map_get_In_keys, Hlt in G. lia. }
  split.
  - intros k e G. rewrite map_get_set_neq; [exact G|].
    intros E. symmetry in E. exact (Fresh k e G E).
  - intros k e G P. destruct (Nat.eq_dec k nextUuid0) as [->|N].
    + rewrite map_get_set_eq in G. injection G as <-. simpl in P.
      rewrite Hp in P. discriminate.
    + rewrite map_get_set_neq in G; [exact G|]. intros E. apply N.
      symmetry. exact E.
Qed.

Lemma keeps_bind {A B} (m : M A) (f : A -> M B) :
  preservesWF m -> keepsFlags m -> (forall a, keepsFlags (f a)) ->
  keepsFlags (bind m f).
Proof.
  intros Wm Km Kf st H. unfold keepsFlags, st_after in *. unfold bind.
  specialize (Km st H). specialize (Wm st H).
  destruct (m st) as [[a|e] s']; simpl in *; [|exact Km].
  eapply flagFrame_trans; [exact Km|]. apply Kf. exact Wm.
Qed.

Lemma keeps_try_catch {A} (b : M A) (h : string -> M A) :
  preservesWF b -> keepsFlags b -> (forall e, keepsFlags (h e)) ->
  keepsFlags (try_catch b h).
Proof.
  intros Wb Kb Kh st H. unfold keepsFlags, st_after in *. unfold try_catch.
  specialize (Kb st H). specialize (Wb st H).
  destruct (b st) as [[a|e] s']; simpl in *; [exact Kb|].
  eapply flagFrame_trans; [exact Kb|]. apply Kh. exact Wb.
Qed.

Ltac keep_steps :=
  repeat first
    [ solve [auto]
    | apply keeps_untouched; solve
        [ apply untouched_ret | apply untouched_throw | apply untouched_log
        | apply untouched_newDate | apply untouched_randomUUID
        | apply untouched_createTransaction
        | apply untouched_createSubscription
        | apply untouched_updateTransactionStatus | auto ]
    | apply keeps_createWebhookEvent; reflexivity
    | apply keeps_bind; [solve [wf_steps]| |intro]
    | apply keeps_try_catch; [solve [wf_steps]| |intro]
    | match goal with
      | |- keepsFlags (match ?x with _ => _ end) => destruct x
      | |- keepsFlags (if ?b then _ else _) => destruct b
      end ].

Lemma keeps_handlers : onlyReplayMarks.
Proof.
  destruct wf_getters as (G1 & G2 & G3).
  destruct wf_gateways as (B1 & B2 & B3 & B4).
  destruct untouched_getters as (U1 & U2).
  destruct untouched_gateways as (V1 & V2 & V3 & V4).
  assert (Kh : forall p, keepsFlags (WebhookService.handleTransactionEvent p)).
  { intros p. unfold WebhookService.handleTransactionEvent,
      WebhookService.createSubscription, WebhookService.handleFailedPayment.
    keep_steps. }
  assert (Wh : forall p, preservesWF (WebhookService.handleTransactionEvent p))
    by exact wf_handleTransactionEvent.
  assert (Kp : forall p, keepsFlags (WebhookService.processWebhookEvent p)).
  { intros p. unfold WebhookService.processWebhookEvent. keep_steps. }
  assert (Wp : forall p, preservesWF (WebhookService.processWebhookEvent p)).
  { intros p. unfold WebhookService.processWebhookEvent. wf_steps. }
  split; [|split; [|split; [|split; [|split; [|split; [|split]]]]]];
    intros; try solve [auto];
    unfold Routes.createRoute, Routes.statusRoute, Routes.getTransactionRoute,
      Routes.webhookRoute, Routes.refundRoute, Routes.subscriptionsRoute;
    keep_steps.
Qed.

(** C10: receiving a webhook whose body has [data] completes and stores the
    event under a fresh id with [processed = false], leaving every stored
    event and its flag as it was, even though the status update succeeds;
    none of the request routes, [processWebhookEvent] or
    [handleTransactionEvent] ever changes a stored event or stores one
    already processed ([onlyReplayMarks]), so the flag can only be set by
    the startup replay; and the next [processUnprocessedEvents] sweep takes
    the event up again, runs the handler on its payload and marks it
    processed. *)
Theorem webhook_flag_set_only_by_replay (p : Payload) (d : PayloadData)
    (st : Store) :
  wf_store st = true -> data p = Some d ->
  let st' := st_after (WebhookService.processWebhookEvent p) st in
  let ev := receivedEvent p d st in
  res_of (WebhookService.processWebhookEvent p) st = Ret tt
  /\ map_get (nextUuid st) (webhookEvents st') = Some ev
  /\ payload ev = p /\ processed ev = false
  /\ (forall k e, map_get k (webhookEvents st) = Some e ->
                  map_get k (webhookEvents st') = Some e)
  /\ onlyReplayMarks
  /\ (exists evs, res_of MemStorage.getUnprocessedWebhookEvents st' = Ret evs
                  /\ In ev evs)
  /\ res_of WebhookService.processUnprocessedEvents st' = Ret tt
  /\ map_get (nextUuid st)
       (webhookEvents (st_after WebhookService.processUnprocessedEvents st'))
     = Some (setProcessed ev).
Proof.
  intros Hwf Hd st' ev.
  destruct (processWebhookEvent_leaves_unprocessed p d st Hwf Hd)
    as (R & _ & Keep & Hg & Hpl & Hp & Un).
  fold st' ev in R, Keep, Hg, Hpl, Hp, Un.
  assert (Wst' : WF st').
  { unfold st', st_after. apply wf_store_iff in Hwf.
    assert (W : preservesWF (WebhookService.processWebhookEvent p))
      by (unfold WebhookService.processWebhookEvent; wf_steps).
    exact (W st Hwf). }
  apply wf_store_iff in Wst'.
  destruct (wf_store_props st' Wst') as (_ & _ & Hnde & _ & _ & Hide & _).
  set (evs := filter (fun e => negb (processed e))
                (map_values (webhookEvents st'))).
  assert (Heq : WebhookService.processUnprocessedEvents st'
                = WebhookService.replayEvents evs st') by reflexivity.
  assert (Hnd : NoDup (map ev_id evs)).
  { apply NoDup_map_filter. rewrite ev_ids_keys; auto. }
  destruct (replayEvents_get evs st' (nextUuid st) Hnd) as [Rr Gr].
  split; [exact R|split; [exact Hg|split; [exact Hpl|split; [exact Hp|]]]].
  split; [exact Keep|split; [exact keeps_handlers|split; [exact Un|]]].
  unfold res_of, st_after in Rr, Gr |- *. rewrite Heq.
  split; [exact Rr|]. rewrite Gr. unfold evs.
  rewrite (find_unprocessed (webhookEvents st') (nextUuid st) ev Hide Hg Hp).
  rewrite Hg, Hpl. unfold payloadOk. rewrite Hd. reflexivity.
Qed.

Lemma webhook_flag_set_only_by_replay_witness :
  wf_store (sampleStore "premium") = true /\ data paidPayload = Some paidData
  /\ onlyReplayMarks
  /\ map_get (nextUuid (sampleStore "premium"))
       (webhookEvents (st_after WebhookService.processUnprocessedEvents
          (st_after (WebhookService.processWebhookEvent paidPayload)
             (sampleStore "premium"))))
     = Some (setProcessed
               (receivedEvent paidPayload paidData (sampleStore "premium"))).
Proof.
  assert (Hwf : wf_store (sampleStore "premium") = true)
    by (vm_compute; reflexivity).
  destruct (webhook_flag_set_only_by_replay paidPayload paidData
              (sampleStore "premium") Hwf eq_refl)
    as (_ & _ & _ & _ & _ & K & _ & _ & G).
  split; [exact Hwf|split; [reflexivity|split; [exact K|exact G]]].
Defined.
